(** * Data preparation of the stateful-LSTM example ([examples/lstm_stateful.py])

    The script generates a uniform random sequence, takes its moving average
    as the training target, optionally turns the input into a rolling window
    view, drops the leading rows where the target or the window is undefined,
    and splits the result into batch-aligned train and test parts.

    Conventions of the embedding:
    - Python integers are [Z]; [%] is floor-modulo and raises on a zero
      divisor; [int] truncates toward zero; slices clamp to the list.
    - floats are exact rationals [Q]; NaN is [None] in a [cell].  The one
      place where rounding decides an integer, the product
      [input_len * ratio] of the split index, is also given in binary64
      arithmetic ([split_index_binary64], [split_data_binary64]).
    - a DataFrame or 2-D array is the list of its rows.
    - numpy's global generator is threaded explicitly; the generator itself
      is an interface ([RandomState]). *)

From Stdlib Require Import ZArith QArith Qround Qabs Qpower Lqa Lia.
From stdpp Require Import base option list strings.

Local Open Scope Z_scope.

Abbreviation cell := (option Q).
Abbreviation frame := (list (list (option Q))).

(** ** Python primitives *)

(** [int(q)] on a float: truncation toward zero. *)
Definition py_int (q : Q) : Z := Z.quot (Qnum q) (Zpos (Qden q)).

(** [a % b]: floor-modulo, [ZeroDivisionError] when [b = 0]. *)
Definition py_mod (a b : Z) : option Z :=
  if decide (b = 0) then None else Some (a `mod` b).

(** [l[:k]]: a negative [k] counts from the end, out-of-range bounds clamp. *)
Definition py_slice_to {A} (k : Z) (l : list A) : list A :=
  if decide (0 ≤ k) then take (Z.to_nat k) l
  else take (length l - Z.to_nat (- k)) l.

(** [l[k:]]. *)
Definition py_slice_from {A} (k : Z) (l : list A) : list A :=
  if decide (0 ≤ k) then drop (Z.to_nat k) l
  else drop (length l - Z.to_nat (- k)) l.

(** ** The random generator interface

    [np.random.seed] and the generator's stream of doubles in [[0, 1)]. *)
Class RandomState (rng : Type) := {
  np_random_seed : Z → rng;
  random_double : rng → Q * rng;
  random_double_range : ∀ s, (0 <= (random_double s).1 ∧ (random_double s).1 < 1)%Q
}.

(** [np.random.uniform(low, high, n)]: [n] successive draws, each scaled as
    [low + (high - low) * u]. *)
Fixpoint np_random_uniform `{RandomState rng} (low high : Q) (n : nat) (s : rng)
  : list Q * rng :=
  match n with
  | O => ([], s)
  | S n' =>
      let '(u, s1) := random_double s in
      let '(vs, s2) := np_random_uniform low high n' s1 in
      ((low + (high - low) * u)%Q :: vs, s2)
  end.

(** [pd.DataFrame(v)] of a 1-D array: one column. *)
Definition pd_DataFrame (vs : list Q) : frame := (λ v, [Some v]) <$> vs.

(** [gen_uniform_amp(amp, xn)]; numpy rejects a negative size. *)
Definition gen_uniform_amp `{RandomState rng} (amp : Q) (xn : Z) (s : rng)
  : option (frame * rng) :=
  if decide (xn < 0) then None
  else
    let '(data_input, s') :=
      np_random_uniform (-1 * amp)%Q (1 * amp)%Q (Z.to_nat xn) s in
    Some (pd_DataFrame data_input, s').

(** ** Columns of a frame *)

Definition ncols (df : frame) : nat := length (default [] (head df)).

Definition get_col (c : nat) (df : frame) : list cell :=
  (λ r : list cell, default None (r !! c)) <$> df.

Definition set_col (c : nat) (col : list cell) (df : frame) : frame :=
  zip_with (λ (r : list cell) (v : cell), <[c := v]> r) df col.

(** ** [rolling(window).mean()]

    pandas evaluates the trailing-window mean with a running sum and a count
    of observations: the sample leaving the window is removed, the entering
    one is added, NaN samples are skipped, and the result is NaN while fewer
    than [min_periods] (= the window) observations are in the window. *)
Definition add_mean (v : cell) (acc : Q * nat) : Q * nat :=
  match v with
  | Some q => ((acc.1 + q)%Q, S acc.2)
  | None => acc
  end.

Definition remove_mean (v : cell) (acc : Q * nat) : Q * nat :=
  match v with
  | Some q => ((acc.1 - q)%Q, pred acc.2)
  | None => acc
  end.

Definition calc_mean (minp : nat) (acc : Q * nat) : cell :=
  if decide (minp ≤ acc.2 ∧ 0 < acc.2)%nat
  then Some (acc.1 / inject_Z (Z.of_nat acc.2))%Q
  else None.

Fixpoint roll_mean (w minp : nat) (vals : list cell) (i : nat) (acc : Q * nat)
    (rest : list cell) : list cell :=
  match rest with
  | [] => []
  | v :: rest' =>
      let acc1 :=
        if decide (w ≤ i)%nat
        then remove_mean (default None (vals !! (i - w)%nat)) acc
        else acc in
      let acc2 := add_mean v acc1 in
      calc_mean minp acc2 :: roll_mean w minp vals (S i) acc2 rest'
  end.

(** A negative window is rejected; an empty window never has an
    observation. *)
Definition rolling_mean (window : Z) (col : list cell) : option (list cell) :=
  if decide (window < 0) then None
  else if decide (window = 0) then Some (replicate (length col) None)
  else
    let w := Z.to_nat window in
    Some (roll_mean w w col 0 (0%Q, 0%nat) col).

(** ** The rolling window view (lines 128-132) *)

(** [np.repeat(a, repeats, axis=1)]. *)
Definition np_repeat_axis1 (repeats : nat) (df : frame) : frame :=
  (λ r : list cell, r ≫= replicate repeats) <$> df.

(** [Series.shift(periods)] for [periods >= 0]. *)
Definition shift (periods : nat) (col : list cell) : list cell :=
  take (length col) (replicate periods None ++ col).

(** [for i, c in enumerate(columns): data_input[c] = data_input[c].shift(i)];
    the columns of a frame built from an array are [0 .. ncols-1]. *)
Definition rolling_window_view (lahead : nat) (data_input : frame) : frame :=
  let data_input := np_repeat_axis1 lahead data_input in
  foldl (λ d c, set_col c (shift c (get_col c d)) d)
        data_input (seq 0 (ncols data_input)).

(** ** The generated data (lines 120-136) *)

Definition to_drop (tsteps lahead : Z) : Z := (tsteps - 1) `max` (lahead - 1).

(** The raw sequence the script draws: [input_len + to_drop] samples of
    amplitude 0.1. *)
Definition generated `{RandomState rng} (input_len tsteps lahead : Z) (s : rng)
  : option (frame * rng) :=
  gen_uniform_amp (1 # 10) (input_len + to_drop tsteps lahead) s.

(** [data_input] and [expected_output] as they reach [split_data]. *)
Definition prepare `{RandomState rng} (input_len tsteps lahead : Z) (s : rng)
  : option (frame * list cell) :=
  '(data_input, _) ← generated input_len tsteps lahead s;
  expected_output ← rolling_mean tsteps (get_col 0 data_input);
  let data_input :=
    if decide (1 < lahead)
    then rolling_window_view (Z.to_nat lahead) data_input
    else data_input in
  Some (py_slice_from (to_drop tsteps lahead) data_input,
        py_slice_from (to_drop tsteps lahead) expected_output).

(** ** [split_data] (lines 173-198) *)

(** [to_train], after the batch-size tweak, with the product
    [input_len * ratio] taken exactly.  [split_index_binary64] below takes it
    in binary64 and keeps the errors of [int]. *)
Definition split_index (input_len batch_size : Z) (ratio : Q) : option Z :=
  let to_train := py_int (inject_Z input_len * ratio) in
  r ← py_mod to_train batch_size;
  Some (to_train - r).

(** [if to_drop > 0: t = t[:-1 * to_drop]]. *)
Definition tail_truncate {A} (to_drop : Z) (t : list A) : list A :=
  if decide (0 < to_drop) then py_slice_to (-1 * to_drop) t else t.

Definition reshape_3 (x : frame) : list (list (list cell)) :=
  (λ r : list cell, (λ v : cell, [v]) <$> r) <$> x.

Definition reshape_2 (y : list cell) : list (list cell) :=
  (λ v : cell, [v]) <$> y.

Definition split_data (input_len batch_size : Z)
    (x : frame) (y : list cell) (ratio : Q)
  : option ((list (list (list cell)) * list (list cell)) *
            (list (list (list cell)) * list (list cell))) :=
  to_train ← split_index input_len batch_size ratio;
  let x_train := py_slice_to to_train x in
  let y_train := py_slice_to to_train y in
  let x_test := py_slice_from to_train x in
  let y_test := py_slice_from to_train y in
  to_drop ← py_mod (Z.of_nat (length x)) batch_size;
  let x_test := tail_truncate to_drop x_test in
  let y_test := tail_truncate to_drop y_test in
  Some ((reshape_3 x_train, reshape_2 y_train),
        (reshape_3 x_test, reshape_2 y_test)).

(** The default [ratio=0.8]. *)
Definition default_ratio : Q := 8 # 10.

(** The whole data path: seed the generator, prepare, split. *)
Definition pipeline `{RandomState rng} (seed input_len tsteps lahead batch_size : Z)
    (ratio : Q) (s0 : rng) :=
  let s := np_random_seed seed in
  '(x, y) ← prepare input_len tsteps lahead s;
  split_data input_len batch_size x y ratio.

(** ** The process-wide generator

    [np.random] keeps one generator state for the whole process.  A call
    that uses it maps the state before the call to its result and the state
    after it. *)
Definition np_random_call (rng A : Type) : Type := rng → A * rng.

Definition call_bind {rng A B : Type} (m : np_random_call rng A)
    (f : A → np_random_call rng B) : np_random_call rng B :=
  λ s, let '(a, s') := m s in f a s'.

(** [np.random.seed(seed)]: the state is replaced. *)
Definition np_random_seed_call `{RandomState rng} (seed : Z)
  : np_random_call rng unit :=
  λ _, (tt, np_random_seed seed).

(** [gen_uniform_amp(amp, xn)] on the process-wide state; where numpy raises
    nothing has been drawn. *)
Definition gen_uniform_amp_call `{RandomState rng} (amp : Q) (xn : Z)
  : np_random_call rng (option frame) :=
  λ s, match gen_uniform_amp amp xn s with
       | Some (data_input, s') => (Some data_input, s')
       | None => (None, s)
       end.

(** Draw the sequence and take its moving average. *)
Definition sequence_generator_unseeded `{RandomState rng} (amp : Q)
    (xn tsteps : Z) : np_random_call rng (option (frame * list cell)) :=
  call_bind (gen_uniform_amp_call amp xn) (λ data_input s,
    (d ← data_input;
     expected_output ← rolling_mean tsteps (get_col 0 d);
     Some (d, expected_output),
     s)).

(** The sequence generator as the script runs it: seed, draw, and take the
    moving average.  The argument of the call is the state of the generator
    before [np.random.seed]; the result is the output ([None] where a call
    raises) and the state the run leaves behind. *)
Definition sequence_generator `{RandomState rng} (seed : Z) (amp : Q)
    (xn tsteps : Z) : np_random_call rng (option (frame * list cell)) :=
  call_bind (np_random_seed_call seed) (λ _,
    sequence_generator_unseeded amp xn tsteps).

(** ** Vocabulary of the statements *)

(** Number of non-NaN entries of a column. *)
Fixpoint count_defined (col : list cell) : nat :=
  match col with
  | [] => 0
  | Some _ :: col' => S (count_defined col')
  | None :: col' => count_defined col'
  end.

Definition Qsum (vs : list Q) : Q := foldr Qplus 0%Q vs.

(** Mean of the [w] samples ending at index [i]. *)
Definition trailing_mean (w : nat) (xs : list Q) (i : nat) : Q :=
  (Qsum (take w (drop (S i - w) xs)) / inject_Z (Z.of_nat w))%Q.

(** The running sum and count of a window of size [w] once [i] samples of
    [xs] were consumed. *)
Definition roll_inv (w : nat) (xs : list Q) (i : nat) (acc : Q * nat) : Prop :=
  acc.2 = (i `min` w)%nat
  ∧ (acc.1 == Qsum (take (i `min` w) (drop (i - w) xs)))%Q.

(** The window ending at raw index [i], most recent sample first: column [c]
    holds the sample [c] steps back, NaN before the start of the sequence. *)
Definition window_at (lahead : nat) (xs : list Q) (i : nat) : list cell :=
  (λ c, if decide (c ≤ i)%nat then xs !! (i - c)%nat else None) <$> seq 0 lahead.

(** The frame while the shifting loop runs: columns below [k] are already
    shifted, the others still hold the repeated sample. *)
Definition view_row (k lahead : nat) (xs : list Q) (i : nat) : list cell :=
  (λ c, if decide (c < k)%nat
        then (if decide (c ≤ i)%nat then xs !! (i - c)%nat else None)
        else xs !! i) <$> seq 0 lahead.

Definition partial_view (k lahead : nat) (xs : list Q) : frame :=
  view_row k lahead xs <$> seq 0 (length xs).

(** The samples the script draws, as a plain list. *)
Definition raw_sequence `{RandomState rng} (input_len tsteps lahead : Z) (s : rng)
  : list Q :=
  (np_random_uniform (-1 * (1 # 10))%Q (1 * (1 # 10))%Q
     (Z.to_nat (input_len + to_drop tsteps lahead)) s).1.

(** The data preparation with the drop placed before the windowing, as a
    reading of "drop, then build the windows" would have it. *)
Definition prepare_drop_first `{RandomState rng} (input_len tsteps lahead : Z)
    (s : rng) : option (frame * list cell) :=
  '(data_input, _) ← generated input_len tsteps lahead s;
  expected_output ← rolling_mean tsteps (get_col 0 data_input);
  let data_input := py_slice_from (to_drop tsteps lahead) data_input in
  let expected_output := py_slice_from (to_drop tsteps lahead) expected_output in
  let data_input :=
    if decide (1 < lahead)
    then rolling_window_view (Z.to_nat lahead) data_input
    else data_input in
  Some (data_input, expected_output).

(** ** A concrete generator

    A linear congruential generator on 31 bits stands in for numpy's
    Mersenne Twister wherever a statement is evaluated on concrete data;
    every theorem below holds for any [RandomState]. *)
Definition lcg_step (s : Z) : Z := (1103515245 * s + 12345) `mod` 2147483648.

Definition lcg_double (s : Z) : Q * Z :=
  let s' := lcg_step s in (s' # 2147483648, s').

#[export] Instance lcg_RandomState : RandomState Z.
Proof.
  refine {| np_random_seed := λ seed, seed; random_double := lcg_double |}.
  intros s. unfold lcg_double, lcg_step; cbn [fst].
  pose proof (Z.mod_pos_bound (1103515245 * s + 12345) 2147483648 eq_refl).
  unfold Qle, Qlt; cbn [Qnum Qden]. lia.
Defined.

(** ** The banner (lines 85-90) *)

(** The message the script prints between its two rows of stars. *)
Definition convergence_banner (lahead tsteps : Z) : string :=
  if decide (tsteps ≤ lahead)
  then "STATELESS LSTM WILL ALSO CONVERGE"
  else "STATELESS LSTM WILL NOT CONVERGE".

(** ** Axis limits of the plots (lines 245-293)

    The arrays plotted have shape [(n, 1)] and hold no NaN; each is given
    here by its column of values. *)

(** Python's [max] of a sequence: the first largest item, [ValueError] on an
    empty one. *)
Definition py_max (l : list Q) : option Q :=
  match l with
  | [] => None
  | a :: l' => Some (foldl (λ m v, if Qlt_le_dec m v then v else m) a l')
  end.

(** [a - b] on two [(n, 1)] and [(m, 1)] arrays: elementwise when [n = m],
    broadcast when one of them has a single row, an error otherwise. *)
Definition np_sub (a b : list Q) : option (list Q) :=
  if decide (length a = length b) then Some (zip_with Qminus a b)
  else
    match a, b with
    | _, [v] => Some ((λ u, (u - v)%Q) <$> a)
    | [u], _ => Some ((λ v, (u - v)%Q) <$> b)
    | _, _ => None
    end.

(** [max_y] and [min_y] (lines 251-253), returned as [(min_y, max_y)]. *)
Definition y_limits (y_test predicted_stateful predicted_stateless : list Q)
  : option (Q * Q) :=
  m ← py_max (Qabs <$> (y_test ++ predicted_stateful ++ predicted_stateless));
  let max_y := (m * (11 # 10))%Q in
  let min_y := (max_y * -1)%Q in
  Some (min_y, max_y).

(** [min_x] and [max_x] (lines 257-258). *)
Definition x_limits (y_test : list Q) : Z * Z := (0, Z.of_nat (length y_test)).

(** The three error series (lines 285-287). *)
Definition error_series (y_test predicted_stateful predicted_stateless : list Q)
  : option (list Q * list Q * list Q) :=
  y_test_err ← np_sub y_test y_test;
  predicted_stateful_err ← np_sub y_test predicted_stateful;
  predicted_stateless_err ← np_sub y_test predicted_stateless;
  Some (y_test_err, predicted_stateful_err, predicted_stateless_err).

(** [max_err] and [min_err] (lines 290-293), returned as
    [(min_err, max_err)]. *)
Definition err_limits (y_test predicted_stateful predicted_stateless : list Q)
  : option (Q * Q) :=
  '(y_test_err, predicted_stateful_err, predicted_stateless_err) ←
    error_series y_test predicted_stateful predicted_stateless;
  m ← py_max (Qabs <$> (y_test_err ++ predicted_stateful_err
                          ++ predicted_stateless_err));
  let max_err := (m * (11 # 10))%Q in
  let min_err := (max_err * -5)%Q in
  Some (min_err, max_err).

(** ** The split index in binary64 arithmetic (line 174)

    [int(input_len * ratio)] converts [input_len] to a float, multiplies in
    double precision and truncates.  A float is a rational, an infinity or
    NaN; [round_binary64] rounds a rational to the nearest double, ties to
    even, with the subnormal range and the overflow to infinity. *)

Inductive py_float := Finite (q : Q) | Infinite (negative : bool) | NaN.

Inductive py_error := ZeroDivisionError | OverflowError | ValueError.

Definition round_half_even (q : Q) : Z :=
  let f := Qfloor q in
  match (q - inject_Z f ?= 1 # 2)%Q with
  | Lt => f
  | Gt => f + 1
  | Eq => if Z.even f then f else f + 1
  end.

(** [floor (log2 x)] of a positive rational. *)
Definition floor_log2 (x : Q) : Z :=
  let d := Z.log2 (Qnum x) - Z.log2 (Zpos (Qden x)) in
  if Qle_bool (2 ^ d) x then d else d - 1.

(** A positive rational rounded to 53 significant bits, no exponent below
    [-1074]. *)
Definition round_binary64_pos (x : Q) : Q :=
  let e := (floor_log2 x - 52) `max` (-1074) in
  (inject_Z (round_half_even (x / 2 ^ e)) * 2 ^ e)%Q.

Definition round_binary64 (x : Q) : py_float :=
  match (x ?= 0)%Q with
  | Eq => Finite 0
  | Gt =>
      let r := round_binary64_pos x in
      if Qle_bool (2 ^ 1024) r then Infinite false else Finite r
  | Lt =>
      let r := round_binary64_pos (- x) in
      if Qle_bool (2 ^ 1024) r then Infinite true else Finite (- r)
  end.

(** The float of a Python integer: [OverflowError] when it is too large. *)
Definition float_of_int (n : Z) : py_error + py_float :=
  match round_binary64 (inject_Z n) with
  | Infinite _ => inl OverflowError
  | f => inr f
  end.

Definition float_mul (a b : py_float) : py_float :=
  match a, b with
  | NaN, _ | _, NaN => NaN
  | Finite p, Finite q => round_binary64 (p * q)
  | Infinite s, Infinite t => Infinite (xorb s t)
  | Infinite s, Finite q | Finite q, Infinite s =>
      match (q ?= 0)%Q with
      | Eq => NaN
      | Lt => Infinite (negb s)
      | Gt => Infinite s
      end
  end.

(** [int(f)]: [ValueError] on NaN, [OverflowError] on an infinity. *)
Definition int_of_float (f : py_float) : py_error + Z :=
  match f with
  | Finite q => inr (py_int q)
  | Infinite _ => inl OverflowError
  | NaN => inl ValueError
  end.

Definition py_mod_err (a b : Z) : py_error + Z :=
  if decide (b = 0) then inl ZeroDivisionError else inr (a `mod` b).

(** [input_len * ratio]. *)
Definition float_product (input_len : Z) (ratio : py_float)
  : py_error + py_float :=
  match float_of_int input_len with
  | inl e => inl e
  | inr f => inr (float_mul f ratio)
  end.

Definition split_index_binary64 (input_len batch_size : Z) (ratio : py_float)
  : py_error + Z :=
  match float_product input_len ratio with
  | inl e => inl e
  | inr p =>
      match int_of_float p with
      | inl e => inl e
      | inr to_train =>
          match py_mod_err to_train batch_size with
          | inl e => inl e
          | inr r => inr (to_train - r)
          end
      end
  end.

(** [split_data] with the split index computed in binary64 and with the
    error each failing operation raises. *)
Definition split_data_binary64 (input_len batch_size : Z)
    (x : frame) (y : list cell) (ratio : py_float)
  : py_error + ((list (list (list cell)) * list (list cell)) *
                (list (list (list cell)) * list (list cell))) :=
  match split_index_binary64 input_len batch_size ratio with
  | inl e => inl e
  | inr to_train =>
      let x_train := py_slice_to to_train x in
      let y_train := py_slice_to to_train y in
      let x_test := py_slice_from to_train x in
      let y_test := py_slice_from to_train y in
      match py_mod_err (Z.of_nat (length x)) batch_size with
      | inl e => inl e
      | inr to_drop =>
          let x_test := tail_truncate to_drop x_test in
          let y_test := tail_truncate to_drop y_test in
          inr ((reshape_3 x_train, reshape_2 y_train),
               (reshape_3 x_test, reshape_2 y_test))
      end
  end.

(** The default [ratio=0.8] as the double the literal denotes. *)
Definition default_ratio_binary64 : py_float := round_binary64 (8 # 10).

(** * Properties *)

(** ** Slices *)

Section Slices.
Context {A : Type}.
Implicit Types (l : list A) (k : Z).

Lemma py_slice_to_nonneg k l :
  0 ≤ k → py_slice_to k l = take (Z.to_nat k) l.
Proof. intros Hk. unfold py_slice_to. by rewrite decide_True. Qed.

Lemma py_slice_from_nonneg k l :
  0 ≤ k → py_slice_from k l = drop (Z.to_nat k) l.
Proof. intros Hk. unfold py_slice_from. by rewrite decide_True. Qed.

Lemma py_slice_to_from k l : py_slice_to k l ++ py_slice_from k l = l.
Proof.
  unfold py_slice_to, py_slice_from.
  destruct (decide (0 ≤ k)); apply take_drop.
Qed.

Lemma tail_truncate_split d (t : list A) :
  0 ≤ d →
  ∃ dropped, t = tail_truncate d t ++ dropped
             ∧ Z.of_nat (length dropped) ≤ d
             ∧ (d = 0 → dropped = []).
Proof.
  intros Hd. unfold tail_truncate, py_slice_to.
  destruct (decide (0 < d)) as [Hpos|Hz].
  - rewrite decide_False by lia.
    exists (drop (length t - Z.to_nat (- (-1 * d))) t).
    rewrite take_drop, length_drop. split; [done|]. split; lia.
  - exists []. rewrite app_nil_r. split; [done|]. simpl. split; [lia|done].
Qed.

Lemma tail_truncate_length d (t : list A) :
  0 ≤ d →
  length (tail_truncate d t) = (length t - Z.to_nat d)%nat.
Proof.
  intros Hd. unfold tail_truncate, py_slice_to.
  destruct (decide (0 < d)).
  - rewrite decide_False by lia. rewrite length_take. lia.
  - replace d with 0 by lia. simpl. lia.
Qed.
End Slices.

(** ** Arithmetic of the split index *)

Lemma py_mod_Some a b : b ≠ 0 → py_mod a b = Some (a `mod` b).
Proof. intros Hb. unfold py_mod. by rewrite decide_False. Qed.

Lemma py_int_floor (q : Q) : (0 <= q)%Q → py_int q = Qfloor q.
Proof.
  destruct q as [n d]. unfold Qle, py_int, Qfloor; cbn [Qnum Qden].
  intros Hn. apply Z.quot_div_nonneg; lia.
Qed.


Lemma split_index_Some (input_len batch_size : Z) (ratio : Q) :
  batch_size ≠ 0 →
  split_index input_len batch_size ratio =
    Some (py_int (inject_Z input_len * ratio)
          - py_int (inject_Z input_len * ratio) `mod` batch_size).
Proof. intros Hb. unfold split_index. by rewrite py_mod_Some. Qed.

Lemma split_data_Some (input_len batch_size : Z) (x : frame) (y : list cell)
    (ratio : Q) (t : Z) :
  batch_size ≠ 0 →
  split_index input_len batch_size ratio = Some t →
  split_data input_len batch_size x y ratio =
    Some ((reshape_3 (py_slice_to t x), reshape_2 (py_slice_to t y)),
          (reshape_3 (tail_truncate (Z.of_nat (length x) `mod` batch_size)
                        (py_slice_from t x)),
           reshape_2 (tail_truncate (Z.of_nat (length x) `mod` batch_size)
                        (py_slice_from t y)))).
Proof.
  intros Hb Ht. unfold split_data. rewrite Ht. simpl.
  by rewrite py_mod_Some.
Qed.

Lemma length_reshape_3 (x : frame) : length (reshape_3 x) = length x.
Proof. unfold reshape_3. by rewrite length_fmap. Qed.

Lemma length_reshape_2 (y : list cell) : length (reshape_2 y) = length y.
Proof. unfold reshape_2. by rewrite length_fmap. Qed.

Lemma aligned_counts (L q b : Z) :
  1 ≤ b → 0 ≤ q ≤ L →
  0 ≤ q - q `mod` b ∧ q - q `mod` b ≤ q
  ∧ (q - q `mod` b) + L `mod` b ≤ L
  ∧ (b | q - q `mod` b)
  ∧ (b | L - (q - q `mod` b) - L `mod` b)
  ∧ 0 ≤ L `mod` b < b.
Proof.
  intros Hb [Hq0 HqL].
  pose proof (Z.mod_pos_bound q b ltac:(lia)) as Hqm.
  pose proof (Z.mod_pos_bound L b ltac:(lia)) as HLm.
  pose proof (Z.div_mod q b ltac:(lia)) as Hqd.
  pose proof (Z.div_mod L b ltac:(lia)) as HLd.
  pose proof (Z.div_le_mono q L b ltac:(lia) HqL) as Hmono.
  assert (Ht : q - q `mod` b = b * (q `div` b)) by lia.
  assert (Hl : L - L `mod` b = b * (L `div` b)) by lia.
  pose proof (Z.mul_le_mono_nonneg_l _ _ b ltac:(lia) Hmono) as Hmul.
  pose proof (Z.mod_le q b ltac:(lia) ltac:(lia)) as Hle.
  split_and!; try lia.
  - rewrite Ht. apply Z.divide_factor_l.
  - exists (L `div` b - q `div` b). lia.
Qed.

(** ** The train/test split *)

(** ** Rounding to binary64 *)

Lemma round_half_even_le (q : Q) (K : Z) :
  (q <= inject_Z K)%Q → round_half_even q ≤ K.
Proof.
  intros Hq. unfold round_half_even.
  pose proof (Qfloor_resp_le _ _ Hq) as Hf. rewrite Qfloor_Z in Hf.
  pose proof (Qfloor_le q) as Hfl.
  assert (Hup : (1 # 2 <= q - inject_Z (Qfloor q))%Q → Qfloor q + 1 ≤ K).
  { intros Hr. assert (Hlt : (inject_Z (Qfloor q) < inject_Z K)%Q) by lra.
    rewrite <- Zlt_Qlt in Hlt. lia. }
  destruct (q - inject_Z (Qfloor q) ?= 1 # 2)%Q eqn:Hc; [|done|].
  - apply Qeq_alt in Hc. destruct (Z.even (Qfloor q)); [done|].
    apply Hup. rewrite Hc. apply Qle_refl.
  - apply Qgt_alt in Hc. apply Hup. by apply Qlt_le_weak.
Qed.

Lemma round_half_even_ge (q : Q) (K : Z) :
  (inject_Z K <= q)%Q → K ≤ round_half_even q.
Proof.
  intros Hq. unfold round_half_even.
  pose proof (Qfloor_resp_le _ _ Hq) as Hf. rewrite Qfloor_Z in Hf.
  destruct (q - inject_Z (Qfloor q) ?= 1 # 2)%Q; [|lia|lia].
  destruct (Z.even (Qfloor q)); lia.
Qed.

Lemma pow2_pos (e : Z) : (0 < 2 ^ e)%Q.
Proof. by apply Qpower_0_lt. Qed.

Lemma pow2_nonpos (e : Z) : e ≤ 0 → (2 ^ e == / inject_Z (2 ^ (- e)))%Q.
Proof.
  intros He. rewrite <- (Z.opp_involutive e) at 1.
  rewrite Qpower_opp. apply Qinv_comp.
  symmetry. apply (Zpower_Qpower 2). lia.
Qed.

Lemma floor_log2_le (x : Q) : (0 < x)%Q → (2 ^ floor_log2 x <= x)%Q.
Proof.
  intros Hx. unfold floor_log2.
  set (la := Z.log2 (Qnum x)). set (lb := Z.log2 (Z.pos (Qden x))).
  destruct (Qle_bool (2 ^ (la - lb)) x) eqn:Hb; [by apply Qle_bool_iff|].
  destruct x as [a b]. unfold Qlt in Hx; cbn [Qnum Qden] in *.
  assert (Ha : 0 < a) by lia.
  pose proof (Z.log2_spec a Ha) as [Ha1 _].
  pose proof (Z.log2_spec (Z.pos b) ltac:(lia)) as [_ Hb2].
  pose proof (Z.log2_nonneg a) as Hla. pose proof (Z.log2_nonneg (Z.pos b)) as Hlb.
  fold la in Ha1, Hla. fold lb in Hb2, Hlb.
  replace (la - lb - 1) with (la - (lb + 1)) by lia.
  rewrite Qpower_minus by done.
  rewrite <- !(Zpower_Qpower 2) by lia.
  assert (Hp : 0 < 2 ^ (lb + 1)) by (apply Z.pow_pos_nonneg; lia).
  apply Qle_shift_div_r.
  { change 0%Q with (inject_Z 0). rewrite <- Zlt_Qlt. replace (Z.succ lb) with (lb + 1) in * by lia. done. }
  unfold Qle, Qmult, inject_Z; cbn [Qnum Qden].
  replace (Z.succ lb) with (lb + 1) in Hb2 by lia.
  assert (H1 : 2 ^ la * Z.pos b ≤ a * 2 ^ (lb + 1)).
  { apply Z.mul_le_mono_nonneg; [apply Z.pow_nonneg; lia|done|lia|lia]. }
  lia.
Qed.

Lemma binade_nonpos (x : Q) (n : Z) :
  (0 < x)%Q → (x <= inject_Z n)%Q → n < 2 ^ 53 →
  (floor_log2 x - 52) `max` (-1074) ≤ 0.
Proof.
  intros Hx Hxn Hn.
  destruct (decide (floor_log2 x ≤ 52)) as [|Hbig]; [lia|]. exfalso.
  pose proof (floor_log2_le x Hx) as Hlow.
  pose proof (Qpower_le_compat_l 2 53 (floor_log2 x) ltac:(lia) ltac:(done)) as Hmono.
  rewrite <- (Zpower_Qpower 2 53) in Hmono by lia.
  assert (Hlt : (inject_Z n < inject_Z (2 ^ 53))%Q) by (by rewrite <- Zlt_Qlt).
  change (inject_Z 2) with 2%Q in Hmono.
  apply (Qlt_irrefl (inject_Z n)).
  eapply Qlt_le_trans; [exact Hlt|].
  eapply Qle_trans; [exact Hmono|]. eapply Qle_trans; [exact Hlow|done].
Qed.

(** Scaling by a binade at or below one: [x / 2^e] is [x] times the integer
    [2^(-e)]. *)
Lemma scaled_by_binade (x : Q) (e : Z) :
  e ≤ 0 → (x / 2 ^ e == x * inject_Z (2 ^ (- e)))%Q.
Proof.
  intros He. unfold Qdiv. rewrite (pow2_nonpos e He), Qinv_involutive.
  reflexivity.
Qed.

Lemma round_binary64_pos_bounds (x : Q) (n : Z) :
  (0 < x)%Q → (x <= inject_Z n)%Q → n < 2 ^ 53 →
  (0 <= round_binary64_pos x ∧ round_binary64_pos x <= inject_Z n)%Q.
Proof.
  intros Hx Hxn Hn. unfold round_binary64_pos.
  pose proof (binade_nonpos x n Hx Hxn Hn) as He.
  set (e := (floor_log2 x - 52) `max` (-1074)) in *.
  assert (Hs : 0 < 2 ^ (- e)) by (apply Z.pow_pos_nonneg; lia).
  assert (HsQ : (0 < inject_Z (2 ^ (- e)))%Q).
  { change 0%Q with (inject_Z 0). by rewrite <- Zlt_Qlt. }
  assert (Hm0 : 0 ≤ round_half_even (x / 2 ^ e)).
  { apply round_half_even_ge. rewrite (scaled_by_binade x e He).
    change (inject_Z 0) with 0%Q. apply Qmult_le_0_compat; by apply Qlt_le_weak. }
  assert (Hm1 : round_half_even (x / 2 ^ e) ≤ n * 2 ^ (- e)).
  { apply round_half_even_le. rewrite (scaled_by_binade x e He), inject_Z_mult.
    apply Qmult_le_compat_r; [done|by apply Qlt_le_weak]. }
  split.
  - apply Qmult_le_0_compat.
    + change 0%Q with (inject_Z 0). by rewrite <- Zle_Qle.
    + apply Qlt_le_weak, pow2_pos.
  - set (m := round_half_even (x / 2 ^ e)) in *. rewrite (pow2_nonpos e He).
    apply Qle_shift_div_r; [done|]. rewrite <- inject_Z_mult. by rewrite <- Zle_Qle.
Qed.

Lemma round_binary64_pos_int (n : Z) :
  0 < n < 2 ^ 53 → (round_binary64_pos (inject_Z n) == inject_Z n)%Q.
Proof.
  intros [Hn0 Hn]. unfold round_binary64_pos.
  assert (Hx : (0 < inject_Z n)%Q).
  { change 0%Q with (inject_Z 0). by rewrite <- Zlt_Qlt. }
  pose proof (binade_nonpos (inject_Z n) n Hx (Qle_refl _) Hn) as He.
  set (e := (floor_log2 (inject_Z n) - 52) `max` (-1074)) in *.
  assert (Hs : 0 < 2 ^ (- e)) by (apply Z.pow_pos_nonneg; lia).
  assert (Hsc : (inject_Z n / 2 ^ e == inject_Z (n * 2 ^ (- e)))%Q).
  { by rewrite (scaled_by_binade _ e He), inject_Z_mult. }
  assert (Hm : round_half_even (inject_Z n / 2 ^ e) = n * 2 ^ (- e)).
  { apply Z.le_antisymm.
    - apply round_half_even_le. rewrite Hsc. apply Qle_refl.
    - apply round_half_even_ge. rewrite Hsc. apply Qle_refl. }
  rewrite Hm. clear Hm Hsc. rewrite (pow2_nonpos e He), inject_Z_mult.
  field. intros H0. apply (Qlt_irrefl 0). rewrite <- H0 at 2.
  change 0%Q with (inject_Z 0). by rewrite <- Zlt_Qlt.
Qed.

Lemma below_overflow (r : Q) (n : Z) :
  (r <= inject_Z n)%Q → n < 2 ^ 53 → Qle_bool (2 ^ 1024) r = false.
Proof.
  intros Hr Hn. apply not_true_is_false. intros Hb. apply Qle_bool_iff in Hb.
  pose proof (Qpower_le_compat_l 2 53 1024 ltac:(lia) ltac:(done)) as Hmono.
  rewrite <- (Zpower_Qpower 2 53) in Hmono by lia.
  change (inject_Z 2) with 2%Q in Hmono.
  assert (Hlt : (inject_Z n < inject_Z (2 ^ 53))%Q) by (by rewrite <- Zlt_Qlt).
  apply (Qlt_irrefl (inject_Z n)).
  eapply Qlt_le_trans; [exact Hlt|].
  eapply Qle_trans; [exact Hmono|]. eapply Qle_trans; [exact Hb|done].
Qed.

Lemma round_half_even_error (q : Q) :
  (Qabs (inject_Z (round_half_even q) - q) <= 1 # 2)%Q.
Proof.
  unfold round_half_even.
  pose proof (Qfloor_le q) as Hlo. pose proof (Qlt_floor q) as Hhi.
  rewrite inject_Z_plus in Hhi. change (inject_Z 1) with 1%Q in Hhi.
  apply Qabs_Qle_condition.
  destruct (q - inject_Z (Qfloor q) ?= 1 # 2)%Q eqn:Hc.
  - apply Qeq_alt in Hc. destruct (Z.even (Qfloor q)).
    + split; lra.
    + rewrite inject_Z_plus. change (inject_Z 1) with 1%Q. split; lra.
  - apply Qlt_alt in Hc. split; lra.
  - apply Qgt_alt in Hc. rewrite inject_Z_plus. change (inject_Z 1) with 1%Q.
    split; lra.
Qed.

Lemma round_binary64_pos_error (x : Q) (n : Z) :
  (0 < x)%Q → (x <= inject_Z n)%Q → n < 2 ^ 53 →
  (Qabs (round_binary64_pos x - x) <= 1 # 2)%Q.
Proof.
  intros Hx Hxn Hn. unfold round_binary64_pos.
  pose proof (binade_nonpos x n Hx Hxn Hn) as He.
  set (e := (floor_log2 x - 52) `max` (-1074)) in *.
  pose proof (round_half_even_error (x / 2 ^ e)) as Herr.
  set (m := round_half_even (x / 2 ^ e)) in *.
  pose proof (pow2_pos e) as Hpos.
  pose proof (Qpower_le_compat_l 2 e 0 He ltac:(done)) as Hle1.
  change (2 ^ 0)%Q with 1%Q in Hle1.
  assert (Heq : (inject_Z m * 2 ^ e - x == (inject_Z m - x / 2 ^ e) * 2 ^ e)%Q).
  { field. intros H0. rewrite H0 in Hpos. by apply (Qlt_irrefl 0). }
  rewrite Heq, Qabs_Qmult, (Qabs_pos (2 ^ e)) by (by apply Qlt_le_weak).
  pose proof (Qabs_nonneg (inject_Z m - x / 2 ^ e)) as Hnn.
  eapply Qle_trans.
  - apply Qmult_le_compat_r; [exact Herr|by apply Qlt_le_weak].
  - rewrite <- (Qmult_1_r (1 # 2)) at 2.
    rewrite !(Qmult_comm (1 # 2)). apply Qmult_le_compat_r; [done|done].
Qed.

(** Rounding keeps a value between zero and a small integer there, and
    moves it by half a unit at most. *)
Lemma round_binary64_bounds (x : Q) (n : Z) :
  (0 <= x)%Q → (x <= inject_Z n)%Q → n < 2 ^ 53 →
  ∃ p, round_binary64 x = Finite p
       ∧ (0 <= p ∧ p <= inject_Z n)%Q
       ∧ (Qabs (p - x) <= 1 # 2)%Q.
Proof.
  intros Hx0 Hxn Hn. unfold round_binary64.
  destruct (x ?= 0)%Q eqn:Hc.
  - apply Qeq_alt in Hc. exists 0%Q. split; [done|]. split.
    + split; [apply Qle_refl|]. by rewrite <- Hc.
    + rewrite Hc. done.
  - apply Qlt_alt in Hc. exfalso. by apply (Qlt_not_le _ _ Hc).
  - apply Qgt_alt in Hc.
    destruct (round_binary64_pos_bounds x n Hc Hxn Hn) as [Hr0 Hr1].
    rewrite (below_overflow _ n Hr1 Hn). eexists. split; [done|].
    split; [done|]. by apply (round_binary64_pos_error x n).
Qed.

Lemma float_of_int_small (n : Z) :
  0 ≤ n < 2 ^ 53 → ∃ f, float_of_int n = inr (Finite f) ∧ (f == inject_Z n)%Q.
Proof.
  intros [Hn0 Hn]. unfold float_of_int, round_binary64.
  destruct (inject_Z n ?= 0)%Q eqn:Hc.
  - exists 0%Q. split; [done|]. apply Qeq_alt in Hc. by rewrite Hc.
  - apply Qlt_alt in Hc. exfalso. change 0%Q with (inject_Z 0) in Hc.
    rewrite <- Zlt_Qlt in Hc. lia.
  - apply Qgt_alt in Hc. change 0%Q with (inject_Z 0) in Hc.
    rewrite <- Zlt_Qlt in Hc.
    pose proof (round_binary64_pos_int n ltac:(lia)) as Hint.
    rewrite (below_overflow _ n) by (done || (rewrite Hint; apply Qle_refl)).
    by eexists.
Qed.

(** The product of the split index for a small length and a ratio within
    [[0, 1]]: finite, between 0 and the length, within half a unit of the
    exact product. *)
Lemma float_product_small (n : Z) (r : Q) :
  0 ≤ n < 2 ^ 53 → (0 <= r)%Q → (r <= 1)%Q →
  ∃ p, float_product n (Finite r) = inr (Finite p)
       ∧ (0 <= p ∧ p <= inject_Z n)%Q
       ∧ (Qabs (p - inject_Z n * r) <= 1 # 2)%Q.
Proof.
  intros Hn H0 H1. unfold float_product.
  destruct (float_of_int_small n Hn) as (f & -> & Hf). cbn [float_mul].
  assert (HnQ : (0 <= inject_Z n)%Q).
  { change 0%Q with (inject_Z 0). rewrite <- Zle_Qle. lia. }
  assert (Hx0 : (0 <= f * r)%Q).
  { apply Qmult_le_0_compat; [by rewrite Hf|done]. }
  assert (Hx1 : (f * r <= inject_Z n)%Q).
  { rewrite Hf. rewrite <- (Qmult_1_r (inject_Z n)) at 2.
    rewrite !(Qmult_comm (inject_Z n)). by apply Qmult_le_compat_r. }
  destruct (round_binary64_bounds (f * r) n Hx0 Hx1 ltac:(lia))
    as (p & -> & Hp & Herr).
  exists p. split; [done|]. split; [done|]. by rewrite <- Hf.
Qed.

Lemma py_mod_err_inr (a b : Z) : b ≠ 0 → py_mod_err a b = inr (a `mod` b).
Proof. intros Hb. unfold py_mod_err. by rewrite decide_False. Qed.

Lemma split_index_binary64_inr (input_len batch_size : Z) (ratio : py_float)
    (p : Q) :
  batch_size ≠ 0 →
  float_product input_len ratio = inr (Finite p) →
  split_index_binary64 input_len batch_size ratio =
    inr (py_int p - py_int p `mod` batch_size).
Proof.
  intros Hb Hp. unfold split_index_binary64. rewrite Hp. cbn [int_of_float].
  by rewrite py_mod_err_inr.
Qed.

Lemma split_data_binary64_inr (input_len batch_size : Z) (x : frame)
    (y : list cell) (ratio : py_float) (t : Z) :
  batch_size ≠ 0 →
  split_index_binary64 input_len batch_size ratio = inr t →
  split_data_binary64 input_len batch_size x y ratio =
    inr ((reshape_3 (py_slice_to t x), reshape_2 (py_slice_to t y)),
         (reshape_3 (tail_truncate (Z.of_nat (length x) `mod` batch_size)
                       (py_slice_from t x)),
          reshape_2 (tail_truncate (Z.of_nat (length x) `mod` batch_size)
                       (py_slice_from t y)))).
Proof.
  intros Hb Ht. unfold split_data_binary64. rewrite Ht.
  by rewrite py_mod_err_inr.
Qed.

(** Where both arithmetics give the same split index, the two models of
    [split_data] return the same arrays. *)
Lemma split_data_binary64_agrees (input_len batch_size : Z) (x : frame)
    (y : list cell) (ratio : Q) (ratio64 : py_float) (t : Z) :
  batch_size ≠ 0 →
  split_index input_len batch_size ratio = Some t →
  split_index_binary64 input_len batch_size ratio64 = inr t →
  ∃ out, split_data input_len batch_size x y ratio = Some out
         ∧ split_data_binary64 input_len batch_size x y ratio64 = inr out.
Proof.
  intros Hb Hq Hf. eexists. split.
  - by apply split_data_Some.
  - by apply split_data_binary64_inr.
Qed.

(** The script's own call, [input_len = 1000] and [ratio = 0.8], and the
    scenario of ten samples: both arithmetics agree. *)
Example split_index_default_call :
  split_index 1000 1 default_ratio = Some 800
  ∧ split_index_binary64 1000 1 default_ratio_binary64 = inr 800
  ∧ split_index 10 1 default_ratio = Some 8
  ∧ split_index_binary64 10 1 default_ratio_binary64 = inr 8.
Proof. by vm_compute. Qed.

(** Doubles the rounding is checked on: [0.1], [3 * 0.1], the smallest
    subnormal, the overflow threshold. *)
Example round_binary64_samples :
  (∃ q, round_binary64 (1 # 10) = Finite q
        ∧ (q == 3602879701896397 # 36028797018963968)%Q)
  ∧ (∃ q, float_mul (Finite 3) (round_binary64 (1 # 10)) = Finite q
          ∧ (q == 5404319552844596 # 18014398509481984)%Q)
  ∧ (∃ q, round_binary64 (2 ^ (-1075)) = Finite q ∧ (q == 0)%Q)
  ∧ (∃ q, round_binary64 (3 * 2 ^ (-1076)) = Finite q ∧ (q == 2 ^ (-1074))%Q)
  ∧ round_binary64 (2 ^ 1024 - 2 ^ 970) = Infinite false
  ∧ (∃ q, round_binary64 (2 ^ 1024 - 2 ^ 970 - 1) = Finite q
          ∧ (q == 2 ^ 1024 - 2 ^ 971)%Q)
  ∧ float_mul (round_binary64 (10 ^ 308)) (Finite 10) = Infinite false.
Proof.
  split_and!; try (vm_compute; reflexivity);
    (eexists; split; [vm_compute; reflexivity|vm_compute; reflexivity]).
Qed.

(** C2 (as amended): the split index is the integer part of the binary64
    product [input_len * ratio], rounded down to a multiple of
    [batch_size].  For [batch_size >= 1], a ratio in [[0, 1]] and arrays of
    [input_len < 2^53] rows that product lies between 0 and the number of
    rows, within half a unit of the exact product; the index is its floor
    rounded down, the train part is exactly the first [to_train] rows and
    the test part, before its tail is truncated, is the rest. *)
Theorem split_data_binary64_split_point (input_len batch_size : Z) (x : frame)
    (y : list cell) (ratio : Q) :
  1 ≤ batch_size → (0 <= ratio)%Q → (ratio <= 1)%Q → input_len < 2 ^ 53 →
  Z.of_nat (length x) = input_len → Z.of_nat (length y) = input_len →
  ∃ (p : Q) (t d : Z),
    float_product input_len (Finite ratio) = inr (Finite p)
    ∧ (0 <= p ∧ p <= inject_Z (Z.of_nat (length x)))%Q
    ∧ (Qabs (p - inject_Z (Z.of_nat (length x)) * ratio) <= 1 # 2)%Q
    ∧ split_index_binary64 input_len batch_size (Finite ratio) = inr t
    ∧ t = batch_size * (Qfloor p `div` batch_size)
    ∧ (batch_size | t)
    ∧ t ≤ Qfloor p < t + batch_size
    ∧ py_mod (Z.of_nat (length x)) batch_size = Some d
    ∧ split_data_binary64 input_len batch_size x y (Finite ratio) =
        inr ((reshape_3 (take (Z.to_nat t) x), reshape_2 (take (Z.to_nat t) y)),
             (reshape_3 (tail_truncate d (drop (Z.to_nat t) x)),
              reshape_2 (tail_truncate d (drop (Z.to_nat t) y))))
    ∧ Z.of_nat (length (take (Z.to_nat t) x)) = t
    ∧ Z.of_nat (length (take (Z.to_nat t) y)) = t
    ∧ x = take (Z.to_nat t) x ++ drop (Z.to_nat t) x
    ∧ y = take (Z.to_nat t) y ++ drop (Z.to_nat t) y.
Proof.
  intros Hb H0 H1 Hn Hx Hy.
  destruct (float_product_small input_len ratio ltac:(lia) H0 H1)
    as (p & Hp & [Hp0 Hp1] & Herr).
  pose proof (py_int_floor p Hp0) as Hint.
  assert (Hfl : 0 ≤ Qfloor p ≤ input_len).
  { split.
    - change 0 with (Qfloor 0). by apply Qfloor_resp_le.
    - rewrite <- (Qfloor_Z input_len). by apply Qfloor_resp_le. }
  pose proof (aligned_counts input_len _ batch_size Hb Hfl)
    as (Ht0 & Htq & _ & Hdiv & _ & _).
  pose proof (Z.mod_pos_bound (Qfloor p) batch_size ltac:(lia)) as Hm.
  pose proof (Z.div_mod (Qfloor p) batch_size ltac:(lia)) as Hdm.
  assert (Hidx : split_index_binary64 input_len batch_size (Finite ratio) =
                 inr (Qfloor p - Qfloor p `mod` batch_size)).
  { rewrite (split_index_binary64_inr _ _ _ p) by (done || lia).
    by rewrite Hint. }
  exists p, (Qfloor p - Qfloor p `mod` batch_size),
         (Z.of_nat (length x) `mod` batch_size).
  rewrite Hx.
  split; [exact Hp|]. split; [done|]. split; [done|].
  split; [exact Hidx|]. split; [lia|]. split; [done|]. split; [lia|].
  split; [rewrite <- Hx; apply py_mod_Some; lia|].
  split.
  { rewrite (split_data_binary64_inr input_len batch_size x y _ _
               ltac:(lia) Hidx).
    by rewrite !py_slice_to_nonneg, !py_slice_from_nonneg, Hx by lia. }
  rewrite !length_take, !take_drop. split_and!; try done; lia.
Qed.

Lemma split_data_binary64_split_point_witness :
  ∃ (p : Q) (t d : Z),
    float_product 100 (Finite (5224175567749775 # 18014398509481984))
      = inr (Finite p)
    ∧ (0 <= p
       ∧ p <= inject_Z (Z.of_nat (length (pd_DataFrame (replicate 100 0%Q)))))%Q
    ∧ (Qabs (p - inject_Z (Z.of_nat (length (pd_DataFrame (replicate 100 0%Q))))
                 * (5224175567749775 # 18014398509481984)) <= 1 # 2)%Q
    ∧ split_index_binary64 100 3 (Finite (5224175567749775 # 18014398509481984))
      = inr t
    ∧ t = 3 * (Qfloor p `div` 3)
    ∧ (3 | t)
    ∧ t ≤ Qfloor p < t + 3
    ∧ py_mod (Z.of_nat (length (pd_DataFrame (replicate 100 0%Q)))) 3 = Some d
    ∧ split_data_binary64 100 3 (pd_DataFrame (replicate 100 0%Q))
        (replicate 100 (Some 0%Q))
        (Finite (5224175567749775 # 18014398509481984)) =
        inr ((reshape_3 (take (Z.to_nat t) (pd_DataFrame (replicate 100 0%Q))),
              reshape_2 (take (Z.to_nat t) (replicate 100 (Some 0%Q)))),
             (reshape_3 (tail_truncate d
                           (drop (Z.to_nat t)
                              (pd_DataFrame (replicate 100 0%Q)))),
              reshape_2 (tail_truncate d
                           (drop (Z.to_nat t) (replicate 100 (Some 0%Q))))))
    ∧ Z.of_nat (length (take (Z.to_nat t) (pd_DataFrame (replicate 100 0%Q)))) = t
    ∧ Z.of_nat (length (take (Z.to_nat t) (replicate 100 (Some 0%Q)))) = t
    ∧ pd_DataFrame (replicate 100 0%Q) =
        take (Z.to_nat t) (pd_DataFrame (replicate 100 0%Q))
        ++ drop (Z.to_nat t) (pd_DataFrame (replicate 100 0%Q))
    ∧ (replicate 100 (Some 0%Q) : list cell) =
        take (Z.to_nat t) (replicate 100 (Some 0%Q))
        ++ drop (Z.to_nat t) (replicate 100 (Some 0%Q)).
Proof.
  apply (split_data_binary64_split_point 100 3 (pd_DataFrame (replicate 100 0%Q))
           (replicate 100 (Some 0%Q))
           (5224175567749775 # 18014398509481984)).
  - lia.
  - vm_compute. discriminate.
  - vm_compute. discriminate.
  - reflexivity.
  - reflexivity.
  - reflexivity.
Defined.

(** C2 as stated fails in five ways.  In binary64 [100 * 0.29] is
    [28.999999999999996], so the index is 28 where the floor of the exact
    product is 29.  With [ratio = 2] the index is 18 but only the 10 rows
    there are form the train part.  The index comes from the global
    [input_len], not from the array: 5 rows with [input_len = 10] give 8,
    not [floor(5 * 0.8) = 4].  And [int] truncates toward zero: a ratio of
    [-0.0625] gives 0 where the floor of [-0.625] is -1.  From [2^53] on
    the float of [input_len] is no longer [input_len]: [2^53 + 3] with
    [ratio = 1] gives the index [2^53 + 4], one more than there are rows. *)
Lemma split_index_is_not_floor_of_exact_product :
  (round_binary64 (29 # 100) = Finite (5224175567749775 # 18014398509481984)
   ∧ split_index_binary64 100 1 (round_binary64 (29 # 100)) = inr 28
   ∧ Qfloor (inject_Z 100 * (29 # 100)) = 29)
  ∧ (∃ x_train y_train x_test y_test,
       split_index_binary64 10 3 (Finite 2) = inr 18
       ∧ split_data_binary64 10 3 (pd_DataFrame (replicate 10 0%Q))
           (replicate 10 (Some 0%Q)) (Finite 2)
         = inr ((x_train, y_train), (x_test, y_test))
       ∧ length x_train = 10%nat)
  ∧ (length (pd_DataFrame (replicate 5 0%Q)) = 5%nat
     ∧ split_index_binary64 10 1 default_ratio_binary64 = inr 8
     ∧ Qfloor (inject_Z 5 * (8 # 10)) = 4
     ∧ ∃ x_train y_train x_test y_test,
         split_data_binary64 10 1 (pd_DataFrame (replicate 5 0%Q))
           (replicate 5 (Some 0%Q)) default_ratio_binary64
         = inr ((x_train, y_train), (x_test, y_test))
         ∧ length x_train = 5%nat)
  ∧ (split_index_binary64 10 1 (Finite (- (1 # 16))) = inr 0
     ∧ Qfloor (inject_Z 10 * - (1 # 16)) = -1)
  ∧ (split_index_binary64 (2 ^ 53 + 3) 1 (Finite 1) = inr (2 ^ 53 + 4)
     ∧ Qfloor (inject_Z (2 ^ 53 + 3) * 1) = 2 ^ 53 + 3).
Proof.
  split_and!; try (vm_compute; reflexivity).
  - eexists _, _, _, _. split; [vm_compute; reflexivity|].
    split; [vm_compute; reflexivity|reflexivity].
  - eexists _, _, _, _. split; [vm_compute; reflexivity|reflexivity].
Qed.




(** ** The sequence generator *)

Section Generator.
Context `{RandomState rng}.

Lemma np_random_uniform_length (low high : Q) (n : nat) (s : rng) :
  length (np_random_uniform low high n s).1 = n.
Proof.
  revert s; induction n as [|n IH]; intros s; simpl; [done|].
  destruct (random_double s) as [u s1].
  specialize (IH s1). destruct (np_random_uniform low high n s1) as [vs s2].
  simpl in *. by rewrite IH.
Qed.

Lemma scaled_draw_range (low high u : Q) :
  (low <= high)%Q → (0 <= u)%Q → (u < 1)%Q →
  (low <= low + (high - low) * u ∧ low + (high - low) * u <= high)%Q.
Proof.
  intros Hlh Hu0 Hu1.
  assert (Hd : (0 <= high - low)%Q) by lra.
  pose proof (Qmult_le_0_compat _ _ Hd Hu0) as Hlo.
  assert (Hhi : ((high - low) * u <= (high - low) * 1)%Q).
  { rewrite !(Qmult_comm (high - low)). apply Qmult_le_compat_r; lra. }
  split; lra.
Qed.

Lemma np_random_uniform_range (low high : Q) (n : nat) (s : rng) :
  (low <= high)%Q →
  Forall (λ v, (low <= v ∧ v <= high)%Q) (np_random_uniform low high n s).1.
Proof.
  intros Hlh. revert s; induction n as [|n IH]; intros s; simpl; [constructor|].
  pose proof (random_double_range s) as [Hu0 Hu1].
  destruct (random_double s) as [u s1].
  specialize (IH s1). destruct (np_random_uniform low high n s1) as [vs s2].
  simpl in *. constructor; [|done]. by apply scaled_draw_range.
Qed.

Lemma gen_uniform_amp_Some (amp : Q) (xn : Z) (s : rng) :
  0 ≤ xn →
  gen_uniform_amp amp xn s =
    Some (pd_DataFrame (np_random_uniform (-1 * amp) (1 * amp) (Z.to_nat xn) s).1,
          (np_random_uniform (-1 * amp) (1 * amp) (Z.to_nat xn) s).2).
Proof.
  intros Hxn. unfold gen_uniform_amp. rewrite decide_False by lia.
  by destruct (np_random_uniform _ _ _ s).
Qed.

End Generator.

(** C8: for [amp > 0] and [xn >= 0], [gen_uniform_amp] returns a
    one-column frame of exactly [xn] samples, each within [[-amp, amp]]. *)
Theorem gen_uniform_amp_length_range `{RandomState rng} (amp : Q) (xn : Z)
    (s : rng) :
  (0 < amp)%Q → 0 ≤ xn →
  ∃ data s',
    gen_uniform_amp amp xn s = Some (data, s')
    ∧ Z.of_nat (length data) = xn
    ∧ ∀ i row, data !! i = Some row →
        ∃ v, row = [Some v] ∧ (- amp <= v ∧ v <= amp)%Q.
Proof.
  intros Hamp Hxn. eexists _, _. split; [by apply gen_uniform_amp_Some|].
  unfold pd_DataFrame. rewrite length_fmap, np_random_uniform_length.
  split; [lia|]. intros i row Hrow.
  rewrite list_lookup_fmap in Hrow.
  destruct (_ !! i) as [v|] eqn:Hv; simplify_eq/=.
  exists v. split; [done|].
  pose proof (np_random_uniform_range (-1 * amp) (1 * amp) (Z.to_nat xn) s
                ltac:(lra)) as Hall.
  rewrite Forall_lookup in Hall. specialize (Hall _ _ Hv). simpl in Hall. lra.
Qed.

Lemma gen_uniform_amp_length_range_witness :
  (0 < 1 # 10)%Q ∧ 0 ≤ 4 ∧
  ∃ data s',
    gen_uniform_amp (1 # 10) 4 (np_random_seed 1986) = Some (data, s')
    ∧ Z.of_nat (length data) = 4
    ∧ ∀ i row, data !! i = Some row →
        ∃ v, row = [Some v] ∧ (- (1 # 10) <= v ∧ v <= 1 # 10)%Q.
Proof.
  split; [reflexivity|]. split; [lia|].
  apply (gen_uniform_amp_length_range (rng := Z) (1 # 10) 4 (np_random_seed 1986)).
  - reflexivity.
  - lia.
Defined.

(** ** The moving average *)

Lemma Qsum_app (l1 l2 : list Q) : (Qsum (l1 ++ l2) == Qsum l1 + Qsum l2)%Q.
Proof.
  induction l1 as [|a l1 IH]; simpl.
  - ring.
  - unfold Qsum in *. simpl. rewrite IH. ring.
Qed.

Lemma Qsum_take_S (xs : list Q) (n : nat) (a : Q) :
  xs !! n = Some a → (Qsum (take (S n) xs) == Qsum (take n xs) + a)%Q.
Proof.
  intros Hn. rewrite (take_S_r _ _ _ Hn), Qsum_app. unfold Qsum; simpl. ring.
Qed.

(** Sliding the window one step: the oldest sample leaves, the next one
    enters. *)
Lemma Qsum_window_slide (xs : list Q) (w k : nat) (a b : Q) :
  (0 < w)%nat → xs !! k = Some a → xs !! (k + w)%nat = Some b →
  (Qsum (take w (drop (S k) xs)) == Qsum (take w (drop k xs)) - a + b)%Q.
Proof.
  intros Hw Ha Hb. destruct w as [|w]; [lia|].
  rewrite (drop_S _ _ _ Ha). cbn [take].
  assert (Hlast : drop (S k) xs !! w = Some b).
  { rewrite lookup_drop. by replace (S k + w)%nat with (k + S w)%nat by lia. }
  rewrite (Qsum_take_S _ _ _ Hlast). unfold Qsum at 2; simpl.
  fold (Qsum (take w (drop (S k) xs))). ring.
Qed.

Lemma get_col_pd_DataFrame (xs : list Q) :
  get_col 0 (pd_DataFrame xs) = Some <$> xs.
Proof.
  unfold get_col, pd_DataFrame. rewrite <- list_fmap_compose.
  by apply list_fmap_ext.
Qed.

Lemma count_defined_app (l1 l2 : list cell) :
  count_defined (l1 ++ l2) = (count_defined l1 + count_defined l2)%nat.
Proof. induction l1 as [|[?|] l1 IH]; simpl; lia. Qed.

Lemma count_defined_all_None (l : list cell) :
  Forall (λ c, c = None) l → count_defined l = 0%nat.
Proof. induction 1 as [|? ? -> _ IH]; simpl; done. Qed.

Lemma count_defined_all_Some (l : list cell) :
  Forall is_Some l → count_defined l = length l.
Proof. induction 1 as [|? ? [? ->] _ IH]; simpl; [done|]. by rewrite IH. Qed.

Section RollMean.
Variables (w : nat) (xs : list Q).
Hypothesis w_pos : (0 < w)%nat.

Lemma roll_inv_step (i : nat) (acc : Q * nat) (a : Q) :
  xs !! i = Some a → roll_inv w xs i acc →
  roll_inv w xs (S i)
    (add_mean (Some a)
       (if decide (w ≤ i)%nat
        then remove_mean (default None ((Some <$> xs) !! (i - w)%nat)) acc
        else acc)).
Proof.
  intros Ha [Hn Hs]. unfold roll_inv. destruct (decide (w ≤ i)%nat) as [Hwi|Hwi].
  - destruct (lookup_lt_is_Some_2 xs (i - w)) as [b Hb].
    { apply lookup_lt_Some in Ha. lia. }
    rewrite list_lookup_fmap, Hb.
    replace (i `min` w)%nat with w in Hn, Hs by lia.
    replace (S i `min` w)%nat with w by lia.
    replace (S i - w)%nat with (S (i - w)) by lia.
    change (default None (Some <$> Some b)) with (Some b).
    cbn [add_mean remove_mean fst snd]. split.
    + rewrite Hn. lia.
    + rewrite Hs.
      rewrite (Qsum_window_slide xs w (i - w) b a w_pos Hb); [ring|].
      by replace (i - w + w)%nat with i by lia.
  - replace (i `min` w)%nat with i in Hn, Hs by lia.
    replace (S i `min` w)%nat with (S i) by lia.
    replace (i - w)%nat with 0%nat in Hs by lia.
    replace (S i - w)%nat with 0%nat by lia.
    cbn [add_mean fst snd]. split.
    + by rewrite Hn.
    + rewrite Hs, !drop_0. by rewrite (Qsum_take_S _ _ _ Ha).
Qed.

Lemma calc_mean_roll_inv (i : nat) (acc : Q * nat) :
  roll_inv w xs (S i) acc →
  ((S i < w)%nat ∧ calc_mean w acc = None)
  ∨ ((w ≤ S i)%nat ∧ ∃ v, calc_mean w acc = Some v
                           ∧ (v == trailing_mean w xs i)%Q).
Proof.
  intros [Hn Hs]. unfold calc_mean.
  destruct (decide (S i < w)%nat) as [Hlt|Hge].
  - left. split; [done|]. rewrite decide_False; [done|]. lia.
  - right. split; [lia|]. rewrite decide_True by lia.
    eexists; split; [done|]. unfold trailing_mean.
    rewrite Hs, Hn. by replace (S i `min` w)%nat with w by lia.
Qed.

Lemma roll_mean_cons (minp : nat) (vals : list cell) (i : nat) (acc : Q * nat)
    (v : cell) (rest : list cell) :
  roll_mean w minp vals i acc (v :: rest) =
    calc_mean minp
      (add_mean v
         (if decide (w ≤ i)%nat
          then remove_mean (default None (vals !! (i - w)%nat)) acc
          else acc))
    :: roll_mean w minp vals (S i)
         (add_mean v
            (if decide (w ≤ i)%nat
             then remove_mean (default None (vals !! (i - w)%nat)) acc
             else acc)) rest.
Proof. reflexivity. Qed.

Lemma roll_mean_lookup (rest : list cell) (i : nat) (acc : Q * nat) (j : nat) :
  rest = drop i (Some <$> xs) → roll_inv w xs i acc → (j < length rest)%nat →
  ((S (i + j) < w)%nat ∧ roll_mean w w (Some <$> xs) i acc rest !! j = Some None)
  ∨ ((w ≤ S (i + j))%nat
     ∧ ∃ v, roll_mean w w (Some <$> xs) i acc rest !! j = Some (Some v)
            ∧ (v == trailing_mean w xs (i + j))%Q).
Proof.
  revert i acc j. induction rest as [|c rest IH]; intros i acc j Hrest Hinv Hj.
  { simpl in Hj. lia. }
  assert (Hc : (Some <$> xs) !! i = Some c).
  { rewrite <- (Nat.add_0_r i), <- lookup_drop, <- Hrest. done. }
  assert (Hrest' : rest = drop (S i) (Some <$> xs)).
  { rewrite (drop_S _ _ _ Hc) in Hrest. by simplify_eq. }
  rewrite list_lookup_fmap in Hc.
  destruct (xs !! i) as [a|] eqn:Ha; simpl in Hc; simplify_eq.
  pose proof (roll_inv_step i acc a Ha Hinv) as Hstep.
  rewrite roll_mean_cons. set (acc2 := add_mean _ _) in *.
  destruct j as [|j].
  - rewrite Nat.add_0_r. cbn [lookup list_lookup].
    destruct (calc_mean_roll_inv i _ Hstep) as [[? ->]|[? (v & -> & ?)]];
      [by left|right; eauto].
  - replace (i + S j)%nat with (S i + j)%nat by lia. cbn [lookup list_lookup].
    apply IH; [done|exact Hstep|simpl in Hj; lia].
Qed.

Lemma roll_mean_length (vals rest : list cell) (minp i : nat) (acc : Q * nat) :
  length (roll_mean w minp vals i acc rest) = length rest.
Proof.
  revert i acc. induction rest as [|c rest IH]; intros i acc; simpl; [done|].
  by rewrite IH.
Qed.
End RollMean.

Lemma roll_inv_init (w : nat) (xs : list Q) : roll_inv w xs 0 (0%Q, 0%nat).
Proof. split; simpl; [done|]. reflexivity. Qed.

Lemma count_defined_leading_None (l : list cell) (k : nat) :
  (∀ i, (i < length l)%nat → (i < k)%nat → l !! i = Some None) →
  (∀ i, (i < length l)%nat → (k ≤ i)%nat → ∃ v, l !! i = Some (Some v)) →
  count_defined l = (length l - k)%nat.
Proof.
  intros Hnone Hsome.
  rewrite <- (take_drop k l) at 1. rewrite count_defined_app.
  rewrite count_defined_all_None, count_defined_all_Some, ?length_drop; [done| |].
  - apply Forall_lookup. intros i c Hc. rewrite lookup_drop in Hc.
    destruct (Hsome (k + i)%nat) as [v Hv]; [by eapply lookup_lt_Some|lia|].
    rewrite Hv in Hc. simplify_eq. by eexists.
  - apply Forall_lookup. intros i c Hc.
    apply lookup_take_Some in Hc as [Hc Hik].
    rewrite Hnone in Hc; [by simplify_eq| by eapply lookup_lt_Some | done].
Qed.

(** The moving average of a NaN-free column, entry by entry. *)
Lemma rolling_mean_spec (xs : list Q) (tsteps : Z) :
  1 ≤ tsteps →
  ∃ ma,
    rolling_mean tsteps (Some <$> xs) = Some ma
    ∧ length ma = length xs
    ∧ (∀ i, (i < length xs)%nat → Z.of_nat i < tsteps - 1 → ma !! i = Some None)
    ∧ (∀ i, (i < length xs)%nat → tsteps - 1 ≤ Z.of_nat i →
         ∃ v, ma !! i = Some (Some v)
              ∧ (v == trailing_mean (Z.to_nat tsteps) xs i)%Q).
Proof.
  intros Hts. unfold rolling_mean. rewrite !decide_False by lia.
  eexists. split; [reflexivity|].
  assert (Hw : (0 < Z.to_nat tsteps)%nat) by lia.
  split; [by rewrite roll_mean_length, length_fmap|].
  split; intros i Hi Hrange;
    destruct (roll_mean_lookup (Z.to_nat tsteps) xs Hw (Some <$> xs) 0
                (0%Q, 0%nat) i eq_refl (roll_inv_init _ _)
                ltac:(by rewrite length_fmap))
      as [[Hlt Hl]|[Hge Hl]]; simpl in *; first [done | lia].
Qed.

(** C4: for [1 <= tsteps <= n], the moving average of an [n]-sample sequence
    has [n] rows of which exactly [n - tsteps + 1] are defined; the first
    [tsteps - 1] rows are NaN and every later row holds the mean of the
    [tsteps] samples ending at that row. *)
Theorem moving_average_defined_values (xs : list Q) (tsteps : Z) :
  1 ≤ tsteps ≤ Z.of_nat (length xs) →
  ∃ ma,
    rolling_mean tsteps (get_col 0 (pd_DataFrame xs)) = Some ma
    ∧ length ma = length xs
    ∧ Z.of_nat (count_defined ma) = Z.of_nat (length xs) - tsteps + 1
    ∧ (∀ i, (i < length xs)%nat → Z.of_nat i < tsteps - 1 → ma !! i = Some None)
    ∧ (∀ i, (i < length xs)%nat → tsteps - 1 ≤ Z.of_nat i →
         ∃ v, ma !! i = Some (Some v)
              ∧ (v == trailing_mean (Z.to_nat tsteps) xs i)%Q).
Proof.
  intros [Hts Hn]. rewrite get_col_pd_DataFrame.
  destruct (rolling_mean_spec xs tsteps Hts) as (ma & Hma & Hlen & Hnone & Hsome).
  exists ma. split_and!; try done.
  rewrite (count_defined_leading_None ma (Z.to_nat tsteps - 1)).
  - rewrite Hlen. lia.
  - intros i Hi Hk. apply Hnone; lia.
  - intros i Hi Hk. destruct (Hsome i) as (v & Hv & _); [lia|lia|]. by exists v.
Qed.

Lemma moving_average_defined_values_witness :
  ∃ ma,
    rolling_mean 2 (get_col 0 (pd_DataFrame [1; 2; 3; 4; 5]%Q)) = Some ma
    ∧ length ma = 5%nat
    ∧ Z.of_nat (count_defined ma) = 5 - 2 + 1
    ∧ (∀ i, (i < 5)%nat → Z.of_nat i < 2 - 1 → ma !! i = Some None)
    ∧ (∀ i, (i < 5)%nat → 2 - 1 ≤ Z.of_nat i →
         ∃ v, ma !! i = Some (Some v)
              ∧ (v == trailing_mean 2 [1; 2; 3; 4; 5]%Q i)%Q).
Proof.
  apply (moving_average_defined_values [1; 2; 3; 4; 5]%Q 2).
  simpl. lia.
Defined.

(** The docstring's example: with [tsteps = 2], the input [1 2 3 4 5] has
    the moving average [NaN 1.5 2.5 3.5 4.5]. *)
Example moving_average_docstring :
  ∃ ma, rolling_mean 2 (get_col 0 (pd_DataFrame [1; 2; 3; 4; 5]%Q)) = Some ma
        ∧ Forall2 (λ c d, match c, d with
                          | Some u, Some v => (u == v)%Q
                          | None, None => True
                          | _, _ => False
                          end)
            ma [None; Some (3 # 2); Some (5 # 2); Some (7 # 2); Some (9 # 2)].
Proof.
  eexists. split; [vm_compute; reflexivity|].
  repeat constructor; reflexivity.
Qed.

(** ** The rolling window view *)

Lemma fmap_const_seq {A} (x : A) (j n : nat) :
  (λ _, x) <$> seq j n = replicate n x.
Proof. revert j; induction n as [|n IH]; intros j; simpl; [done|]. by rewrite IH. Qed.

Lemma view_row_lookup (k L : nat) (xs : list Q) (i c : nat) :
  (c < L)%nat →
  view_row k L xs i !! c =
    Some (if decide (c < k)%nat
          then (if decide (c ≤ i)%nat then xs !! (i - c)%nat else None)
          else xs !! i).
Proof.
  intros Hc. unfold view_row. by rewrite list_lookup_fmap, lookup_seq_lt.
Qed.

Lemma length_view_row (k L : nat) (xs : list Q) (i : nat) :
  length (view_row k L xs i) = L.
Proof. unfold view_row. by rewrite length_fmap, length_seq. Qed.

Lemma partial_view_lookup (k L : nat) (xs : list Q) (i : nat) :
  (i < length xs)%nat → partial_view k L xs !! i = Some (view_row k L xs i).
Proof.
  intros Hi. unfold partial_view. by rewrite list_lookup_fmap, lookup_seq_lt.
Qed.

Lemma length_partial_view (k L : nat) (xs : list Q) :
  length (partial_view k L xs) = length xs.
Proof. unfold partial_view. by rewrite length_fmap, length_seq. Qed.

Lemma np_repeat_pd_DataFrame (L : nat) (xs : list Q) :
  np_repeat_axis1 L (pd_DataFrame xs) = partial_view 0 L xs.
Proof.
  apply list_eq; intros i.
  unfold np_repeat_axis1, pd_DataFrame. rewrite !list_lookup_fmap.
  destruct (xs !! i) as [v|] eqn:Hv; simpl.
  - rewrite partial_view_lookup by (by eapply lookup_lt_Some).
    rewrite app_nil_r. f_equal. unfold view_row.
    rewrite <- (fmap_const_seq (Some v) 0 L).
    apply list_fmap_ext; intros j c Hc. by rewrite decide_False by lia.
  - symmetry. apply lookup_ge_None_2. rewrite length_partial_view.
    by apply lookup_ge_None.
Qed.

Lemma get_col_partial_view (k L : nat) (xs : list Q) :
  (k < L)%nat → get_col k (partial_view k L xs) = Some <$> xs.
Proof.
  intros Hk. apply list_eq; intros i. unfold get_col.
  rewrite !list_lookup_fmap.
  destruct (xs !! i) as [v|] eqn:Hv.
  - rewrite partial_view_lookup by (by eapply lookup_lt_Some). simpl.
    rewrite view_row_lookup by done. rewrite decide_False by lia.
    by rewrite Hv.
  - rewrite (lookup_ge_None_2 (partial_view k L xs)); [done|].
    rewrite length_partial_view. by apply lookup_ge_None.
Qed.

Lemma shift_lookup (k : nat) (xs : list Q) (i : nat) :
  (i < length xs)%nat →
  shift k (Some <$> xs) !! i =
    Some (if decide (k ≤ i)%nat then xs !! (i - k)%nat else None).
Proof.
  intros Hi. unfold shift. rewrite length_fmap, lookup_take_lt by done.
  destruct (decide (k ≤ i)%nat) as [Hki|Hki].
  - rewrite lookup_app_r; rewrite length_replicate; [|done].
    rewrite list_lookup_fmap.
    destruct (lookup_lt_is_Some_2 xs (i - k)) as [v Hv]; [lia|].
    by rewrite Hv.
  - rewrite lookup_app_l by (rewrite length_replicate; lia).
    apply lookup_replicate_2. lia.
Qed.

Lemma length_shift (k : nat) (col : list cell) : length (shift k col) = length col.
Proof.
  unfold shift. rewrite length_take, length_app, length_replicate. lia.
Qed.

(** One turn of the loop shifts column [k]. *)
Lemma view_step (k L : nat) (xs : list Q) :
  (k < L)%nat →
  set_col k (shift k (get_col k (partial_view k L xs))) (partial_view k L xs)
  = partial_view (S k) L xs.
Proof.
  intros Hk. rewrite get_col_partial_view by done.
  apply list_eq; intros i. unfold set_col. rewrite lookup_zip_with.
  destruct (decide (i < length xs)%nat) as [Hi|Hi].
  - rewrite !partial_view_lookup, shift_lookup by done. simpl. f_equal.
    apply list_eq; intros c. rewrite list_lookup_insert, length_view_row.
    destruct (decide (c < L)%nat) as [Hc|Hc].
    + rewrite !view_row_lookup by done.
      destruct (decide (k = c ∧ (k < L)%nat)) as [[-> _]|Hne];
        repeat case_decide; first [done | lia].
    + rewrite decide_False by lia.
      rewrite !(lookup_ge_None_2 (view_row _ _ _ _)); [done| |];
        rewrite length_view_row; lia.
  - rewrite !(lookup_ge_None_2 (partial_view _ _ _)); [done| |];
      rewrite length_partial_view; lia.
Qed.

Lemma view_loop (k L : nat) (xs : list Q) :
  (k ≤ L)%nat →
  foldl (λ d c, set_col c (shift c (get_col c d)) d) (partial_view 0 L xs) (seq 0 k)
  = partial_view k L xs.
Proof.
  induction k as [|k IH]; intros Hk; [done|].
  rewrite seq_S, foldl_app, IH by lia. simpl. by apply view_step.
Qed.

Lemma ncols_partial_view (k L : nat) (xs : list Q) :
  xs ≠ [] → ncols (partial_view k L xs) = L.
Proof.
  destruct xs as [|a xs]; [done|]. intros _.
  unfold ncols, partial_view. simpl. apply length_view_row.
Qed.

Lemma view_row_full (L : nat) (xs : list Q) (i : nat) :
  view_row L L xs i = window_at L xs i.
Proof.
  unfold view_row, window_at. apply list_fmap_ext; intros j c Hc.
  apply lookup_seq in Hc as [-> Hj]. by rewrite decide_True by lia.
Qed.

(** The rolling window view of a generated sequence: row [i] is the window
    ending at [i], most recent sample first. *)
Lemma rolling_window_view_spec (L : nat) (xs : list Q) :
  rolling_window_view L (pd_DataFrame xs) = window_at L xs <$> seq 0 (length xs).
Proof.
  unfold rolling_window_view. rewrite np_repeat_pd_DataFrame.
  destruct (decide (xs = [])) as [->|Hne]; [done|].
  rewrite ncols_partial_view, view_loop by done.
  unfold partial_view. apply list_fmap_ext; intros j i _. apply view_row_full.
Qed.

(** ** The prepared data *)

Section Prepared.
Context `{RandomState rng}.
Implicit Types (input_len tsteps lahead batch_size : Z) (s : rng).

Lemma to_drop_nonneg tsteps lahead : 1 ≤ tsteps → 0 ≤ to_drop tsteps lahead.
Proof. unfold to_drop. lia. Qed.

Lemma length_raw_sequence input_len tsteps lahead s :
  length (raw_sequence input_len tsteps lahead s)
  = Z.to_nat (input_len + to_drop tsteps lahead).
Proof. unfold raw_sequence. apply np_random_uniform_length. Qed.

Lemma generated_Some input_len tsteps lahead s :
  0 ≤ input_len + to_drop tsteps lahead →
  ∃ s', generated input_len tsteps lahead s
        = Some (pd_DataFrame (raw_sequence input_len tsteps lahead s), s').
Proof.
  intros Hn. unfold generated. rewrite gen_uniform_amp_Some by done.
  by eexists.
Qed.

(** What [prepare] returns: the windowed (or plain) input and the moving
    average, both without their first [to_drop] rows. *)
Lemma prepare_Some input_len tsteps lahead s :
  0 ≤ input_len → 1 ≤ tsteps →
  ∃ ma,
    rolling_mean tsteps (Some <$> raw_sequence input_len tsteps lahead s) = Some ma
    ∧ prepare input_len tsteps lahead s =
        Some (drop (Z.to_nat (to_drop tsteps lahead))
                (if decide (1 < lahead)
                 then window_at (Z.to_nat lahead) (raw_sequence input_len tsteps lahead s)
                      <$> seq 0 (length (raw_sequence input_len tsteps lahead s))
                 else pd_DataFrame (raw_sequence input_len tsteps lahead s)),
              drop (Z.to_nat (to_drop tsteps lahead)) ma).
Proof.
  intros Hn Hts. pose proof (to_drop_nonneg tsteps lahead Hts) as Hd.
  destruct (rolling_mean_spec (raw_sequence input_len tsteps lahead s) tsteps Hts)
    as (ma & Hma & _).
  exists ma. split; [done|]. unfold prepare.
  destruct (generated_Some input_len tsteps lahead s ltac:(lia)) as [s' ->].
  simpl. rewrite get_col_pd_DataFrame, Hma. simpl.
  rewrite !py_slice_from_nonneg by done.
  destruct (decide (1 < lahead)); [|done].
  by rewrite rolling_window_view_spec.
Qed.

Lemma prepare_lengths input_len tsteps lahead s :
  0 ≤ input_len → 1 ≤ tsteps →
  ∃ x y, prepare input_len tsteps lahead s = Some (x, y)
         ∧ Z.of_nat (length x) = input_len
         ∧ Z.of_nat (length y) = input_len.
Proof.
  intros Hn Hts. pose proof (to_drop_nonneg tsteps lahead Hts) as Hd.
  destruct (prepare_Some input_len tsteps lahead s Hn Hts) as (ma & Hma & ->).
  destruct (rolling_mean_spec (raw_sequence input_len tsteps lahead s) tsteps Hts)
    as (ma' & Hma' & Hlen & _).
  rewrite Hma in Hma'. simplify_eq.
  eexists _, _. split; [done|].
  rewrite !length_drop, Hlen.
  destruct (decide (1 < lahead)); unfold pd_DataFrame;
    rewrite length_fmap, ?length_seq, length_raw_sequence; lia.
Qed.
End Prepared.

(** ** Defined entries *)

Lemma window_at_defined (L : nat) (xs : list Q) (i : nat) :
  (i < length xs)%nat → (L - 1 ≤ i)%nat → Forall is_Some (window_at L xs i).
Proof.
  intros Hi HL. unfold window_at. apply Forall_fmap, Forall_forall.
  intros c Hc. apply elem_of_seq in Hc. simpl.
  rewrite decide_True by lia. apply lookup_lt_is_Some_2. lia.
Qed.

Lemma pd_DataFrame_defined (xs : list Q) :
  Forall (Forall is_Some) (pd_DataFrame xs).
Proof.
  unfold pd_DataFrame. apply Forall_fmap, Forall_forall. intros v _. simpl.
  repeat constructor. by eexists.
Qed.

Lemma windows_defined_after (L d : nat) (xs : list Q) :
  (L - 1 ≤ d)%nat →
  Forall (Forall is_Some) (drop d (window_at L xs <$> seq 0 (length xs))).
Proof.
  intros HL. apply Forall_lookup. intros j row Hrow.
  rewrite lookup_drop, list_lookup_fmap in Hrow.
  destruct (seq 0 (length xs) !! (d + j)%nat) as [i|] eqn:Hi; simplify_eq/=.
  apply lookup_seq in Hi as [-> Hi]. apply window_at_defined; lia.
Qed.

Section SliceForall.
Context {A : Type} (P : A → Prop).

Lemma Forall_py_slice_to (k : Z) (l : list A) :
  Forall P l → Forall P (py_slice_to k l).
Proof. intros Hl. unfold py_slice_to. case_decide; by apply Forall_take. Qed.

Lemma Forall_py_slice_from (k : Z) (l : list A) :
  Forall P l → Forall P (py_slice_from k l).
Proof. intros Hl. unfold py_slice_from. case_decide; by apply Forall_drop. Qed.

Lemma Forall_tail_truncate (d : Z) (l : list A) :
  Forall P l → Forall P (tail_truncate d l).
Proof.
  intros Hl. unfold tail_truncate. case_decide; [|done].
  by apply Forall_py_slice_to.
Qed.
End SliceForall.

Lemma reshape_3_defined (x : frame) :
  Forall (Forall is_Some) x → Forall (Forall (Forall is_Some)) (reshape_3 x).
Proof.
  intros Hx. unfold reshape_3. apply Forall_fmap.
  eapply Forall_impl; [exact Hx|]. intros r Hr. simpl. apply Forall_fmap.
  eapply Forall_impl; [exact Hr|]. intros v Hv. simpl. by constructor.
Qed.

Lemma reshape_2_defined (y : list cell) :
  Forall is_Some y → Forall (Forall is_Some) (reshape_2 y).
Proof.
  intros Hy. unfold reshape_2. apply Forall_fmap.
  eapply Forall_impl; [exact Hy|]. intros v Hv. simpl. by constructor.
Qed.

Lemma split_data_defined (input_len batch_size : Z) (x : frame) (y : list cell)
    (ratio : Q) x_train y_train x_test y_test :
  Forall (Forall is_Some) x → Forall is_Some y →
  split_data input_len batch_size x y ratio
    = Some ((x_train, y_train), (x_test, y_test)) →
  Forall (Forall (Forall is_Some)) x_train ∧ Forall (Forall is_Some) y_train
  ∧ Forall (Forall (Forall is_Some)) x_test ∧ Forall (Forall is_Some) y_test.
Proof.
  intros Hx Hy Hsplit. unfold split_data in Hsplit.
  destruct (split_index input_len batch_size ratio) as [t|]; [|done].
  simpl in Hsplit.
  destruct (py_mod (Z.of_nat (length x)) batch_size) as [d|]; [|done].
  simpl in Hsplit. simplify_eq.
  split_and!.
  - by apply reshape_3_defined, Forall_py_slice_to.
  - by apply reshape_2_defined, Forall_py_slice_to.
  - by apply reshape_3_defined, Forall_tail_truncate, Forall_py_slice_from.
  - by apply reshape_2_defined, Forall_tail_truncate, Forall_py_slice_from.
Qed.

Lemma moving_average_defined_after (xs : list Q) (tsteps : Z) (ma : list cell)
    (d : nat) :
  1 ≤ tsteps → tsteps - 1 ≤ Z.of_nat d →
  rolling_mean tsteps (Some <$> xs) = Some ma →
  Forall is_Some (drop d ma).
Proof.
  intros Hts Hd Hma.
  destruct (rolling_mean_spec xs tsteps Hts) as (ma' & Hma' & Hlen & _ & Hsome).
  rewrite Hma in Hma'. simplify_eq.
  apply Forall_lookup. intros j c Hc. rewrite lookup_drop in Hc.
  destruct (Hsome (d + j)%nat) as (v & Hv & _).
  - rewrite <- Hlen. by eapply lookup_lt_Some.
  - lia.
  - rewrite Hv in Hc. simplify_eq. by eexists.
Qed.

(** ** The pipeline *)

(** C10: the script draws [input_len + to_drop] samples, so after the first
    [to_drop] rows are dropped the input and the moving average both have
    exactly [input_len] rows, and the split index taken from the global
    [input_len] is the one the length of the array being split gives. *)
Theorem prepared_rows_are_input_len `{RandomState rng}
    (input_len tsteps lahead : Z) (s : rng) :
  0 ≤ input_len → 1 ≤ tsteps →
  ∃ data s' x y,
    generated input_len tsteps lahead s = Some (data, s')
    ∧ Z.of_nat (length data) = input_len + to_drop tsteps lahead
    ∧ prepare input_len tsteps lahead s = Some (x, y)
    ∧ Z.of_nat (length x) = input_len
    ∧ Z.of_nat (length y) = input_len
    ∧ ∀ batch_size ratio,
        split_index input_len batch_size ratio
        = split_index (Z.of_nat (length x)) batch_size ratio.
Proof.
  intros Hn Hts. pose proof (to_drop_nonneg tsteps lahead Hts) as Hd.
  destruct (generated_Some input_len tsteps lahead s ltac:(lia)) as [s' Hgen].
  destruct (prepare_lengths input_len tsteps lahead s Hn Hts)
    as (x & y & Hprep & Hx & Hy).
  eexists _, s', x, y. split; [exact Hgen|].
  split.
  { unfold pd_DataFrame. rewrite length_fmap, length_raw_sequence. lia. }
  split_and!; try done. intros batch_size ratio. by rewrite Hx.
Qed.

Lemma prepared_rows_are_input_len_witness :
  ∃ data s' x y,
    generated 4 3 2 (np_random_seed 1986) = Some (data, s')
    ∧ Z.of_nat (length data) = 4 + to_drop 3 2
    ∧ prepare 4 3 2 (np_random_seed 1986) = Some (x, y)
    ∧ Z.of_nat (length x) = 4
    ∧ Z.of_nat (length y) = 4
    ∧ ∀ batch_size ratio,
        split_index 4 batch_size ratio
        = split_index (Z.of_nat (length x)) batch_size ratio.
Proof.
  apply (prepared_rows_are_input_len (rng := Z) 4 3 2 (np_random_seed 1986)); lia.
Defined.

(** C6 (as amended): with [input_len = 10], [tsteps = 2], [lahead = 1] and
    [batch_size = 1], [to_drop] is 1, 11 samples are drawn, their moving
    average has 10 defined values, 10 rows are kept, and the split at
    [ratio = 0.8] gives 8 train and 2 test samples. *)
Theorem scenario_ten_samples `{RandomState rng} (s : rng) :
  to_drop 2 1 = 1
  ∧ ∃ data s' ma x y x_train y_train x_test y_test,
      generated 10 2 1 s = Some (data, s')
      ∧ length data = 11%nat
      ∧ rolling_mean 2 (get_col 0 data) = Some ma
      ∧ count_defined ma = 10%nat
      ∧ prepare 10 2 1 s = Some (x, y)
      ∧ length x = 10%nat ∧ length y = 10%nat ∧ count_defined y = 10%nat
      ∧ split_data 10 1 x y default_ratio
        = Some ((x_train, y_train), (x_test, y_test))
      ∧ length x_train = 8%nat ∧ length y_train = 8%nat
      ∧ length x_test = 2%nat ∧ length y_test = 2%nat.
Proof.
  split; [done|].
  destruct (generated_Some 10 2 1 s ltac:(done)) as [s' Hgen].
  pose proof (length_raw_sequence 10 2 1 s) as Hlen.
  change (Z.to_nat (10 + to_drop 2 1)) with 11%nat in Hlen.
  destruct (rolling_mean_spec (raw_sequence 10 2 1 s) 2 ltac:(lia))
    as (ma & Hma & Hmalen & Hnone & Hsome).
  destruct (prepare_Some 10 2 1 s ltac:(lia) ltac:(lia)) as (ma' & Hma' & Hprep).
  rewrite Hma in Hma'. injection Hma' as <-.
  rewrite decide_False in Hprep by lia.
  change (Z.to_nat (to_drop 2 1)) with 1%nat in Hprep.
  assert (Hy : Forall is_Some (drop 1 ma)).
  { by apply (moving_average_defined_after (raw_sequence 10 2 1 s) 2). }
  eexists _, s', ma, _, _, _, _, _, _.
  split; [exact Hgen|].
  split; [by unfold pd_DataFrame; rewrite length_fmap|].
  split; [by rewrite get_col_pd_DataFrame|].
  split.
  { rewrite (count_defined_leading_None ma 1).
    - rewrite Hmalen, Hlen. done.
    - intros i Hi Hk. apply Hnone; lia.
    - intros i Hi Hk. destruct (Hsome i) as (v & Hv & _); [lia|lia|]. by exists v. }
  split; [exact Hprep|].
  assert (Hxl : length (drop 1 (pd_DataFrame (raw_sequence 10 2 1 s))) = 10%nat).
  { unfold pd_DataFrame. by rewrite length_drop, length_fmap, Hlen. }
  assert (Hyl : length (drop 1 ma) = 10%nat).
  { by rewrite length_drop, Hmalen, Hlen. }
  split; [done|]. split; [done|].
  split; [by rewrite count_defined_all_Some|].
  rewrite (split_data_Some 10 1 _ _ default_ratio 8 ltac:(lia) eq_refl).
  split; [reflexivity|].
  rewrite !length_reshape_3, !length_reshape_2.
  rewrite Hxl. change (Z.of_nat 10 `mod` 1) with 0.
  rewrite !tail_truncate_length by lia.
  rewrite !py_slice_to_nonneg, !py_slice_from_nonneg by lia.
  rewrite !length_take, !length_drop. unfold pd_DataFrame.
  rewrite length_fmap, Hmalen, Hlen. done.
Qed.

(** C6 as stated fails: the scenario has 10 defined moving-average values
    and 8 train samples, not 9 and 7. *)
Lemma scenario_ten_samples_not_nine_and_seven :
  ¬ ∃ data s' ma x y x_train y_train x_test y_test,
      generated 10 2 1 (np_random_seed 1986) = Some (data, s')
      ∧ rolling_mean 2 (get_col 0 data) = Some ma
      ∧ count_defined ma = 9%nat
      ∧ prepare 10 2 1 (np_random_seed 1986) = Some (x, y)
      ∧ split_data 10 1 x y default_ratio
        = Some ((x_train, y_train), (x_test, y_test))
      ∧ length x_train = 7%nat
      ∧ length x_test = 2%nat.
Proof.
  intros (data & s' & ma & x & y & x_train & y_train & x_test & y_test
          & Hgen & Hma & Hcount & _).
  vm_compute in Hgen. injection Hgen as <- <-.
  vm_compute in Hma. injection Hma as <-.
  vm_compute in Hcount. discriminate.
Qed.

(** The same scenario evaluated: 10 defined values, 8 train and 2 test. *)
Example scenario_ten_samples_counts :
  ∃ data s' ma x y x_train y_train x_test y_test,
    generated 10 2 1 (np_random_seed 1986) = Some (data, s')
    ∧ rolling_mean 2 (get_col 0 data) = Some ma
    ∧ count_defined ma = 10%nat
    ∧ prepare 10 2 1 (np_random_seed 1986) = Some (x, y)
    ∧ split_data 10 1 x y default_ratio
      = Some ((x_train, y_train), (x_test, y_test))
    ∧ length x_train = 8%nat
    ∧ length x_test = 2%nat.
Proof.
  eexists _, _, _, _, _, _, _, _, _.
  split; [vm_compute; reflexivity|].
  split; [vm_compute; reflexivity|].
  split; [vm_compute; reflexivity|].
  split; [vm_compute; reflexivity|].
  split; [vm_compute; reflexivity|].
  split; reflexivity.
Qed.

(** ** The windows *)

(** Row [j] of the prepared input is the window ending at raw index
    [j + to_drop]. *)
Lemma prepared_window_row `{RandomState rng} (input_len tsteps lahead : Z)
    (s : rng) (x : frame) (y : list cell) (j : nat) :
  0 ≤ input_len → 1 ≤ tsteps → 1 < lahead →
  prepare input_len tsteps lahead s = Some (x, y) →
  (j < Z.to_nat input_len)%nat →
  x !! j = Some (window_at (Z.to_nat lahead)
                   (raw_sequence input_len tsteps lahead s)
                   (Z.to_nat (to_drop tsteps lahead) + j)).
Proof.
  intros Hn Hts Hla Hprep Hj.
  pose proof (to_drop_nonneg tsteps lahead Hts) as Hd.
  destruct (prepare_Some input_len tsteps lahead s Hn Hts) as (ma & _ & Heq).
  rewrite Hprep, decide_True in Heq by done. simplify_eq.
  rewrite lookup_drop, list_lookup_fmap, lookup_seq_lt; [done|].
  rewrite length_raw_sequence. lia.
Qed.

(** C5 (as amended): with [lahead = 2] and [tsteps = 2], the row kept for
    raw index [i] is the pair [[x[i], x[i-1]]], most recent sample first;
    the first kept row, [i = 1], holds the true samples [x[1]] and [x[0]],
    no placeholder and no NaN. *)
Theorem window_rows_two_steps `{RandomState rng} (input_len : Z) (s : rng) :
  0 ≤ input_len →
  ∃ x y,
    prepare input_len 2 2 s = Some (x, y)
    ∧ Z.of_nat (length x) = input_len
    ∧ ∀ i, (1 ≤ i ≤ Z.to_nat input_len)%nat →
        ∃ cur prev,
          raw_sequence input_len 2 2 s !! i = Some cur
          ∧ raw_sequence input_len 2 2 s !! (i - 1)%nat = Some prev
          ∧ x !! (i - 1)%nat = Some [Some cur; Some prev].
Proof.
  intros Hn.
  destruct (prepare_lengths input_len 2 2 s Hn ltac:(lia))
    as (x & y & Hprep & Hx & Hy).
  exists x, y. split; [done|]. split; [done|]. intros i Hi.
  pose proof (length_raw_sequence input_len 2 2 s) as Hlen.
  change (to_drop 2 2) with 1 in Hlen.
  destruct (lookup_lt_is_Some_2 (raw_sequence input_len 2 2 s) i) as [cur Hcur];
    [lia|].
  destruct (lookup_lt_is_Some_2 (raw_sequence input_len 2 2 s) (i - 1))
    as [prev Hprev]; [lia|].
  exists cur, prev. split; [done|]. split; [done|].
  rewrite (prepared_window_row input_len 2 2 s x y (i - 1) Hn ltac:(lia)
             ltac:(lia) Hprep ltac:(lia)).
  change (Z.to_nat (to_drop 2 2)) with 1%nat.
  replace (1 + (i - 1))%nat with i by lia.
  unfold window_at. change (Z.to_nat 2) with 2%nat. cbn [seq fmap list_fmap].
  rewrite !decide_True by lia.
  rewrite Nat.sub_0_r, Hcur, Hprev. done.
Qed.

Lemma window_rows_two_steps_witness :
  ∃ x y,
    prepare 3 2 2 (np_random_seed 1986) = Some (x, y)
    ∧ Z.of_nat (length x) = 3
    ∧ ∀ i, (1 ≤ i ≤ Z.to_nat 3)%nat →
        ∃ cur prev,
          raw_sequence 3 2 2 (np_random_seed 1986) !! i = Some cur
          ∧ raw_sequence 3 2 2 (np_random_seed 1986) !! (i - 1)%nat = Some prev
          ∧ x !! (i - 1)%nat = Some [Some cur; Some prev].
Proof.
  apply (window_rows_two_steps (rng := Z) 3 (np_random_seed 1986)). lia.
Defined.

(** C5 as stated fails on the order inside a row: the first kept row is
    [[x[1], x[0]]], which is not [[x[0], x[1]]]. *)
Lemma window_rows_not_oldest_first :
  ∃ x y x0 x1 x2,
    raw_sequence 2 2 2 (np_random_seed 1986) = [x0; x1; x2]
    ∧ prepare 2 2 2 (np_random_seed 1986) = Some (x, y)
    ∧ x !! 0%nat = Some [Some x1; Some x0]
    ∧ ¬ (x0 == x1)%Q
    ∧ x !! 0%nat ≠ Some [Some x0; Some x1].
Proof.
  eexists _, _, _, _, _.
  split; [vm_compute; reflexivity|].
  split; [vm_compute; reflexivity|].
  split; [reflexivity|].
  split; [vm_compute; discriminate|].
  vm_compute. discriminate.
Qed.

(** * Further properties of the script *)

(** ** More on [split_data] *)

(** X1: every way [split_data] can raise, in the order the script meets
    them: [OverflowError] when [input_len] is too large for a float or the
    product [input_len * ratio] is infinite, [ValueError] when that product
    is NaN, [ZeroDivisionError] when it is finite and [batch_size] is zero;
    in every other case a result is returned. *)
Theorem split_data_binary64_raises (input_len batch_size : Z) (x : frame)
    (y : list cell) (ratio : py_float) :
  (∀ err,
     split_data_binary64 input_len batch_size x y ratio = inl err ↔
       (float_of_int input_len = inl OverflowError ∧ err = OverflowError)
       ∨ (∃ s, float_product input_len ratio = inr (Infinite s)
               ∧ err = OverflowError)
       ∨ (float_product input_len ratio = inr NaN ∧ err = ValueError)
       ∨ (∃ p, float_product input_len ratio = inr (Finite p)
               ∧ batch_size = 0 ∧ err = ZeroDivisionError))
  ∧ ((∃ out, split_data_binary64 input_len batch_size x y ratio = inr out) ↔
       batch_size ≠ 0 ∧ ∃ p, float_product input_len ratio = inr (Finite p)).
Proof.
  unfold split_data_binary64, split_index_binary64, float_product, py_mod_err.
  destruct (float_of_int input_len) as [e|f] eqn:Hf.
  { assert (e = OverflowError) as ->.
    { unfold float_of_int in Hf. by destruct (round_binary64 _); simplify_eq. }
    split.
    - intros err. split.
      + intros [= <-]. by left.
      + intros [[_ ->]|[(s & [=] & _)|[[[=] _]|(p & [=] & _)]]]. done.
    - split; [by intros [out [=]]|]. by intros [_ (p & [=])]. }
  destruct (float_mul f ratio) as [p|s|] eqn:Hp; cbn [int_of_float].
  - destruct (decide (batch_size = 0)) as [Hb|Hb].
    + split.
      * intros err. split.
        -- intros [= <-]. do 3 right. by exists p.
        -- intros [[[=] _]|[(s & [=] & _)|[[[=] _]|(p' & _ & _ & ->)]]]. done.
      * split; [by intros [out [=]]|]. by intros [? _].
    + split.
      * intros err. split; [done|].
        intros [[[=] _]|[(s & [=] & _)|[[[=] _]|(p' & _ & ? & _)]]]. done.
      * split; [|by eexists]. intros _. split; [done|by exists p].
  - split.
    + intros err. split.
      * intros [= <-]. right; left. by exists s.
      * intros [[[=] _]|[(s' & _ & ->)|[[[=] _]|(p' & [=] & _)]]]. done.
    + split; [by intros [out [=]]|]. by intros [_ (p & [=])].
  - split.
    + intros err. split.
      * intros [= <-]. do 2 right; left. done.
      * intros [[[=] _]|[(s' & [=] & _)|[[_ ->]|(p' & [=] & _)]]]. done.
    + split; [by intros [out [=]]|]. by intros [_ (p & [=])].
Qed.






(** ** More on the prepared data *)

Lemma window_at_lookup (L : nat) (xs : list Q) (i c : nat) :
  (c < L)%nat → (c ≤ i)%nat →
  window_at L xs i !! c = Some (xs !! (i - c)%nat).
Proof.
  intros Hc Hi. unfold window_at.
  rewrite list_lookup_fmap, lookup_seq_lt by done. simpl.
  by rewrite decide_True by lia.
Qed.

Lemma length_window_at (L : nat) (xs : list Q) (i : nat) :
  length (window_at L xs i) = L.
Proof. unfold window_at. by rewrite length_fmap, length_seq. Qed.

Lemma pd_DataFrame_row (xs : list Q) (i : nat) :
  (i < length xs)%nat → pd_DataFrame xs !! i = Some (window_at 1 xs i).
Proof.
  intros Hi. unfold pd_DataFrame, window_at. rewrite list_lookup_fmap.
  destruct (lookup_lt_is_Some_2 xs i Hi) as [v Hv]. rewrite Hv.
  cbn [fmap option_fmap option_map list_fmap seq].
  rewrite decide_True by lia. by rewrite Nat.sub_0_r, Hv.
Qed.

(** Row [j] of the prepared input, for every [lahead >= 1]. *)
Lemma prepared_row `{RandomState rng} (input_len tsteps lahead : Z) (s : rng)
    (x : frame) (y : list cell) (j : nat) :
  0 ≤ input_len → 1 ≤ tsteps → 1 ≤ lahead →
  prepare input_len tsteps lahead s = Some (x, y) →
  (j < Z.to_nat input_len)%nat →
  x !! j = Some (window_at (Z.to_nat lahead)
                   (raw_sequence input_len tsteps lahead s)
                   (Z.to_nat (to_drop tsteps lahead) + j)).
Proof.
  intros Hn Hts Hla Hprep Hj.
  destruct (decide (1 < lahead)) as [Hl|Hl].
  - by apply (prepared_window_row input_len tsteps lahead s x y j).
  - assert (lahead = 1) as -> by lia.
    pose proof (to_drop_nonneg tsteps 1 Hts) as Hd.
    destruct (prepare_Some input_len tsteps 1 s Hn Hts) as (ma & _ & Heq).
    rewrite Hprep, decide_False in Heq by done. simplify_eq.
    rewrite lookup_drop. apply pd_DataFrame_row.
    rewrite length_raw_sequence. lia.
Qed.

(** Row [j] of the prepared target. *)
Lemma prepared_target `{RandomState rng} (input_len tsteps lahead : Z) (s : rng)
    (x : frame) (y : list cell) (j : nat) :
  0 ≤ input_len → 1 ≤ tsteps →
  prepare input_len tsteps lahead s = Some (x, y) →
  (j < Z.to_nat input_len)%nat →
  ∃ t, y !! j = Some (Some t)
       ∧ (t == trailing_mean (Z.to_nat tsteps)
                 (raw_sequence input_len tsteps lahead s)
                 (Z.to_nat (to_drop tsteps lahead) + j))%Q.
Proof.
  intros Hn Hts Hprep Hj.
  pose proof (to_drop_nonneg tsteps lahead Hts) as Hd.
  destruct (prepare_Some input_len tsteps lahead s Hn Hts) as (ma & Hma & Heq).
  rewrite Hprep in Heq. simplify_eq.
  destruct (rolling_mean_spec (raw_sequence input_len tsteps lahead s) tsteps Hts)
    as (ma' & Hma' & _ & _ & Hsome).
  rewrite Hma in Hma'. injection Hma' as <-.
  rewrite lookup_drop. apply Hsome.
  - rewrite length_raw_sequence. lia.
  - unfold to_drop in *. lia.
Qed.

(** X4: for [lahead > 1] each of the [input_len] prepared rows has exactly
    [lahead] entries, none of them NaN, and entry [c] of row [j] is the
    sample [c] steps before raw index [j + to_drop]: shifting column [c]
    back by [c] gives the sequence again. *)
Theorem prepared_windows `{RandomState rng} (input_len tsteps lahead : Z)
    (s : rng) :
  0 ≤ input_len → 1 ≤ tsteps → 1 < lahead →
  ∃ x y,
    prepare input_len tsteps lahead s = Some (x, y)
    ∧ ∀ j, (j < Z.to_nat input_len)%nat →
        ∃ row,
          x !! j = Some row
          ∧ Z.of_nat (length row) = lahead
          ∧ ∀ c, (c < Z.to_nat lahead)%nat →
              ∃ v, raw_sequence input_len tsteps lahead s
                     !! (Z.to_nat (to_drop tsteps lahead) + j - c)%nat = Some v
                   ∧ row !! c = Some (Some v).
Proof.
  intros Hn Hts Hla.
  destruct (prepare_lengths input_len tsteps lahead s Hn Hts)
    as (x & y & Hprep & _ & _).
  exists x, y. split; [done|]. intros j Hj.
  eexists. split.
  { by apply (prepared_row input_len tsteps lahead s x y j); try lia. }
  split; [rewrite length_window_at; lia|]. intros c Hc.
  pose proof (length_raw_sequence input_len tsteps lahead s) as Hlen.
  assert (Hd : Z.to_nat (to_drop tsteps lahead) = Z.to_nat (lahead - 1)
               ∨ (Z.to_nat (lahead - 1) ≤ Z.to_nat (to_drop tsteps lahead))%nat)
    by (unfold to_drop; lia).
  rewrite window_at_lookup by lia.
  destruct (lookup_lt_is_Some_2 (raw_sequence input_len tsteps lahead s)
              (Z.to_nat (to_drop tsteps lahead) + j - c)) as [v Hv].
  { rewrite Hlen. pose proof (to_drop_nonneg tsteps lahead Hts). lia. }
  exists v. by rewrite Hv.
Qed.

Lemma prepared_windows_witness :
  ∃ x y,
    prepare 3 2 3 (np_random_seed 1986) = Some (x, y)
    ∧ ∀ j, (j < Z.to_nat 3)%nat →
        ∃ row,
          x !! j = Some row
          ∧ Z.of_nat (length row) = 3
          ∧ ∀ c, (c < Z.to_nat 3)%nat →
              ∃ v, raw_sequence 3 2 3 (np_random_seed 1986)
                     !! (Z.to_nat (to_drop 2 3) + j - c)%nat = Some v
                   ∧ row !! c = Some (Some v).
Proof.
  apply (prepared_windows (rng := Z) 3 2 3 (np_random_seed 1986)); lia.
Defined.

(** X5: inputs and targets are aligned: row [j] of the input starts with the
    sample at raw index [j + to_drop], and row [j] of the target is the mean
    of the [tsteps] samples ending at that same index. *)
Theorem prepared_pairs_aligned `{RandomState rng} (input_len tsteps lahead : Z)
    (s : rng) :
  0 ≤ input_len → 1 ≤ tsteps → 1 ≤ lahead →
  ∃ x y,
    prepare input_len tsteps lahead s = Some (x, y)
    ∧ ∀ j, (j < Z.to_nat input_len)%nat →
        ∃ row cur t,
          x !! j = Some row
          ∧ row !! 0%nat = Some (Some cur)
          ∧ raw_sequence input_len tsteps lahead s
              !! (Z.to_nat (to_drop tsteps lahead) + j)%nat = Some cur
          ∧ y !! j = Some (Some t)
          ∧ (t == trailing_mean (Z.to_nat tsteps)
                    (raw_sequence input_len tsteps lahead s)
                    (Z.to_nat (to_drop tsteps lahead) + j))%Q.
Proof.
  intros Hn Hts Hla.
  destruct (prepare_lengths input_len tsteps lahead s Hn Hts)
    as (x & y & Hprep & _ & _).
  exists x, y. split; [done|]. intros j Hj.
  destruct (prepared_target input_len tsteps lahead s x y j Hn Hts Hprep Hj)
    as (t & Ht & Hmean).
  pose proof (length_raw_sequence input_len tsteps lahead s) as Hlen.
  pose proof (to_drop_nonneg tsteps lahead Hts) as Hd.
  destruct (lookup_lt_is_Some_2 (raw_sequence input_len tsteps lahead s)
              (Z.to_nat (to_drop tsteps lahead) + j)) as [cur Hcur]; [lia|].
  eexists _, cur, t. split.
  { by apply (prepared_row input_len tsteps lahead s x y j). }
  split; [|done].
  rewrite window_at_lookup by lia. by rewrite Nat.sub_0_r, Hcur.
Qed.

Lemma prepared_pairs_aligned_witness :
  ∃ x y,
    prepare 3 2 1 (np_random_seed 1986) = Some (x, y)
    ∧ ∀ j, (j < Z.to_nat 3)%nat →
        ∃ row cur t,
          x !! j = Some row
          ∧ row !! 0%nat = Some (Some cur)
          ∧ raw_sequence 3 2 1 (np_random_seed 1986)
              !! (Z.to_nat (to_drop 2 1) + j)%nat = Some cur
          ∧ y !! j = Some (Some t)
          ∧ (t == trailing_mean (Z.to_nat 2)
                    (raw_sequence 3 2 1 (np_random_seed 1986))
                    (Z.to_nat (to_drop 2 1) + j))%Q.
Proof.
  apply (prepared_pairs_aligned (rng := Z) 3 2 1 (np_random_seed 1986)); lia.
Defined.

Lemma Qsum_reverse (l : list Q) : (Qsum (reverse l) == Qsum l)%Q.
Proof.
  induction l as [|a l IH]; [reflexivity|].
  rewrite reverse_cons, Qsum_app, IH. unfold Qsum; simpl. ring.
Qed.

(** The first [w] entries of a window are the last [w] samples, latest
    first. *)
Lemma window_prefix (L w : nat) (xs : list Q) (i : nat) :
  (w ≤ L)%nat → (w ≤ S i)%nat → (i < length xs)%nat →
  take w (window_at L xs i) = Some <$> reverse (take w (drop (S i - w) xs)).
Proof.
  intros HwL Hwi Hi.
  assert (Hlen : length (take w (drop (S i - w) xs)) = w).
  { rewrite length_take, length_drop. lia. }
  apply list_eq; intros c. rewrite lookup_take, list_lookup_fmap.
  destruct (decide (c < w)%nat) as [Hc|Hc].
  - rewrite window_at_lookup by lia.
    rewrite reverse_lookup, Hlen by lia.
    rewrite lookup_take_lt, lookup_drop by lia.
    replace (S i - w + (w - S c))%nat with (i - c)%nat by lia.
    destruct (lookup_lt_is_Some_2 xs (i - c)) as [v Hv]; [lia|].
    by rewrite Hv.
  - rewrite (lookup_ge_None_2 (reverse _)); [done|].
    rewrite length_reverse, Hlen. lia.
Qed.

(** X6: when the banner reads that the stateless model will also converge
    ([lahead >= tsteps]), every target can be computed from its own input
    row: it is the mean of the first [tsteps] entries of that row. *)
Theorem target_is_mean_of_window `{RandomState rng} (input_len tsteps lahead : Z)
    (s : rng) :
  0 ≤ input_len → 1 ≤ tsteps →
  convergence_banner lahead tsteps = "STATELESS LSTM WILL ALSO CONVERGE" →
  ∃ x y,
    prepare input_len tsteps lahead s = Some (x, y)
    ∧ ∀ j, (j < Z.to_nat input_len)%nat →
        ∃ row vs t,
          x !! j = Some row
          ∧ y !! j = Some (Some t)
          ∧ take (Z.to_nat tsteps) row = Some <$> vs
          ∧ Z.of_nat (length vs) = tsteps
          ∧ (t == Qsum vs / inject_Z tsteps)%Q.
Proof.
  intros Hn Hts Hbanner.
  assert (Hla : tsteps ≤ lahead).
  { unfold convergence_banner in Hbanner. by case_decide. }
  destruct (prepare_lengths input_len tsteps lahead s Hn Hts)
    as (x & y & Hprep & _ & _).
  exists x, y. split; [done|]. intros j Hj.
  destruct (prepared_target input_len tsteps lahead s x y j Hn Hts Hprep Hj)
    as (t & Ht & Hmean).
  pose proof (length_raw_sequence input_len tsteps lahead s) as Hlen.
  assert (Hd : to_drop tsteps lahead = lahead - 1) by (unfold to_drop; lia).
  set (i := (Z.to_nat (to_drop tsteps lahead) + j)%nat) in *.
  set (xs := raw_sequence input_len tsteps lahead s) in *.
  exists (window_at (Z.to_nat lahead) xs i),
         (reverse (take (Z.to_nat tsteps) (drop (S i - Z.to_nat tsteps) xs))), t.
  split.
  { by apply (prepared_row input_len tsteps lahead s x y j); try lia. }
  split; [done|].
  split; [apply window_prefix; lia|].
  split.
  { rewrite length_reverse, length_take, length_drop. lia. }
  rewrite Hmean, Qsum_reverse. unfold trailing_mean.
  by rewrite Z2Nat.id by lia.
Qed.

Lemma target_is_mean_of_window_witness :
  ∃ x y,
    prepare 3 2 3 (np_random_seed 1986) = Some (x, y)
    ∧ ∀ j, (j < Z.to_nat 3)%nat →
        ∃ row vs t,
          x !! j = Some row
          ∧ y !! j = Some (Some t)
          ∧ take (Z.to_nat 2) row = Some <$> vs
          ∧ Z.of_nat (length vs) = 2
          ∧ (t == Qsum vs / inject_Z 2)%Q.
Proof.
  apply (target_is_mean_of_window (rng := Z) 3 2 3 (np_random_seed 1986)).
  - lia.
  - lia.
  - reflexivity.
Defined.

(** X7: no usable pair is thrown away: every one of the first [to_drop]
    rows has a NaN, either as its moving average or inside its window. *)
Theorem dropped_rows_are_undefined `{RandomState rng}
    (input_len tsteps lahead : Z) (s : rng) :
  0 ≤ input_len → 1 ≤ tsteps →
  ∃ data s' ma,
    generated input_len tsteps lahead s = Some (data, s')
    ∧ rolling_mean tsteps (get_col 0 data) = Some ma
    ∧ ∀ i, (i < Z.to_nat (to_drop tsteps lahead))%nat →
        ma !! i = Some None
        ∨ ∃ row,
            (if decide (1 < lahead)
             then rolling_window_view (Z.to_nat lahead) data
             else data) !! i = Some row
            ∧ None ∈ row.
Proof.
  intros Hn Hts. pose proof (to_drop_nonneg tsteps lahead Hts) as Hd.
  destruct (generated_Some input_len tsteps lahead s ltac:(lia)) as [s' Hgen].
  destruct (rolling_mean_spec (raw_sequence input_len tsteps lahead s) tsteps Hts)
    as (ma & Hma & _ & Hnone & _).
  pose proof (length_raw_sequence input_len tsteps lahead s) as Hlen.
  eexists _, s', ma. split; [exact Hgen|].
  split; [by rewrite get_col_pd_DataFrame|]. intros i Hi.
  destruct (decide (Z.of_nat i < tsteps - 1)) as [Hlt|Hge].
  - left. apply Hnone; lia.
  - right. assert (Hla : 1 < lahead) by (unfold to_drop in *; lia).
    rewrite decide_True, rolling_window_view_spec by done.
    eexists. split.
    + rewrite list_lookup_fmap, lookup_seq_lt by lia. done.
    + apply list_elem_of_lookup. exists (S i). unfold window_at.
      rewrite list_lookup_fmap, lookup_seq_lt by (unfold to_drop in *; lia).
      simpl. by rewrite decide_False by lia.
Qed.

Lemma dropped_rows_are_undefined_witness :
  ∃ data s' ma,
    generated 2 2 4 (np_random_seed 1986) = Some (data, s')
    ∧ rolling_mean 2 (get_col 0 data) = Some ma
    ∧ ∀ i, (i < Z.to_nat (to_drop 2 4))%nat →
        ma !! i = Some None
        ∨ ∃ row,
            (if decide (1 < 4)
             then rolling_window_view (Z.to_nat 4) data
             else data) !! i = Some row
            ∧ None ∈ row.
Proof.
  apply (dropped_rows_are_undefined (rng := Z) 2 2 4 (np_random_seed 1986)); lia.
Defined.



Lemma Qsum_bounds (lo hi : Q) (l : list Q) :
  Forall (λ v, (lo <= v ∧ v <= hi)%Q) l →
  (inject_Z (Z.of_nat (length l)) * lo <= Qsum l
   ∧ Qsum l <= inject_Z (Z.of_nat (length l)) * hi)%Q.
Proof.
  induction 1 as [|a l [Ha1 Ha2] _ [IH1 IH2]].
  - change (Qsum []) with 0%Q. change (inject_Z (Z.of_nat (length (@nil Q)))) with 0%Q.
    split; rewrite Qmult_0_l; apply Qle_refl.
  - cbn [length]. rewrite Nat2Z.inj_succ, <- Z.add_1_r, inject_Z_plus.
    change (Qsum (a :: l)) with (a + Qsum l)%Q.
    change (inject_Z 1) with 1%Q.
    set (N := inject_Z (Z.of_nat (length l))) in *.
    split; ring_simplify; lra.
Qed.

Lemma trailing_mean_bounds (lo hi : Q) (w : nat) (xs : list Q) (i : nat) :
  Forall (λ v, (lo <= v ∧ v <= hi)%Q) xs →
  (0 < w)%nat → (w ≤ S i)%nat → (i < length xs)%nat →
  (lo <= trailing_mean w xs i ∧ trailing_mean w xs i <= hi)%Q.
Proof.
  intros Hxs Hw Hwi Hi. unfold trailing_mean.
  pose proof (Qsum_bounds lo hi (take w (drop (S i - w) xs))
                ltac:(by apply Forall_take, Forall_drop)) as [Hlo Hhi].
  replace (length (take w (drop (S i - w) xs))) with w in Hlo, Hhi
    by (rewrite length_take, length_drop; lia).
  assert (HW : (0 < inject_Z (Z.of_nat w))%Q).
  { change 0%Q with (inject_Z 0). rewrite <- Zlt_Qlt. lia. }
  split.
  - apply Qle_shift_div_l; [done|]. by rewrite Qmult_comm.
  - apply Qle_shift_div_r; [done|]. by rewrite Qmult_comm.
Qed.

Lemma raw_sequence_range `{RandomState rng} (input_len tsteps lahead : Z)
    (s : rng) :
  Forall (λ v, (- (1 # 10) <= v ∧ v <= 1 # 10)%Q)
    (raw_sequence input_len tsteps lahead s).
Proof.
  unfold raw_sequence.
  eapply Forall_impl; [apply np_random_uniform_range; lra|].
  intros v [Hlo Hhi]. simpl in *. split; lra.
Qed.

(** X9: every entry of the prepared input and every prepared target lies
    within the amplitude [[-0.1, 0.1]] of the generated sequence. *)
Theorem prepared_values_bounded `{RandomState rng} (input_len tsteps lahead : Z)
    (s : rng) :
  0 ≤ input_len → 1 ≤ tsteps → 1 ≤ lahead →
  ∃ x y,
    prepare input_len tsteps lahead s = Some (x, y)
    ∧ Forall (Forall (λ c : cell,
                ∃ v, c = Some v ∧ (- (1 # 10) <= v ∧ v <= 1 # 10)%Q)) x
    ∧ Forall (λ c : cell,
                ∃ t, c = Some t ∧ (- (1 # 10) <= t ∧ t <= 1 # 10)%Q) y.
Proof.
  intros Hn Hts Hla.
  destruct (prepare_lengths input_len tsteps lahead s Hn Hts)
    as (x & y & Hprep & Hx & Hy).
  pose proof (raw_sequence_range input_len tsteps lahead s) as Hrange.
  pose proof (length_raw_sequence input_len tsteps lahead s) as Hlen.
  pose proof (to_drop_nonneg tsteps lahead Hts) as Hd.
  exists x, y. split; [done|]. split.
  - apply Forall_lookup. intros j row Hrow.
    assert (Hj : (j < Z.to_nat input_len)%nat).
    { apply lookup_lt_Some in Hrow. lia. }
    rewrite (prepared_row input_len tsteps lahead s x y j Hn Hts Hla Hprep Hj)
      in Hrow.
    injection Hrow as <-. apply Forall_lookup. intros c v Hv.
    assert (Hc : (c < Z.to_nat lahead)%nat).
    { apply lookup_lt_Some in Hv. by rewrite length_window_at in Hv. }
    rewrite window_at_lookup in Hv by (unfold to_drop in *; lia).
    injection Hv as <-.
    destruct (lookup_lt_is_Some_2 (raw_sequence input_len tsteps lahead s)
                (Z.to_nat (to_drop tsteps lahead) + j - c)) as [v Hv]; [lia|].
    rewrite Hv. exists v. split; [done|].
    rewrite Forall_lookup in Hrange. exact (Hrange _ _ Hv).
  - apply Forall_lookup. intros j c Hc.
    assert (Hj : (j < Z.to_nat input_len)%nat).
    { apply lookup_lt_Some in Hc. lia. }
    destruct (prepared_target input_len tsteps lahead s x y j Hn Hts Hprep Hj)
      as (t & Ht & Hmean).
    rewrite Ht in Hc. injection Hc as <-. exists t. split; [done|].
    rewrite Hmean. apply trailing_mean_bounds; [done| | |];
      unfold to_drop in *; lia.
Qed.

Lemma prepared_values_bounded_witness :
  ∃ x y,
    prepare 3 2 2 (np_random_seed 1986) = Some (x, y)
    ∧ Forall (Forall (λ c : cell,
                ∃ v, c = Some v ∧ (- (1 # 10) <= v ∧ v <= 1 # 10)%Q)) x
    ∧ Forall (λ c : cell,
                ∃ t, c = Some t ∧ (- (1 # 10) <= t ∧ t <= 1 # 10)%Q) y.
Proof.
  apply (prepared_values_bounded (rng := Z) 3 2 2 (np_random_seed 1986)); lia.
Defined.

Lemma reshape_3_shape (n : nat) (x : frame) :
  Forall (λ r, length r = n) x →
  Forall (λ sample : list (list cell),
            length sample = n ∧ Forall (λ step, length step = 1%nat) sample)
    (reshape_3 x).
Proof.
  intros Hx. unfold reshape_3. apply Forall_fmap.
  eapply Forall_impl; [exact Hx|]. intros r Hr. simpl.
  split; [by rewrite length_fmap|].
  apply Forall_fmap, Forall_forall. by intros v _.
Qed.

Lemma reshape_2_shape (y : list cell) :
  Forall (λ r : list cell, length r = 1%nat) (reshape_2 y).
Proof. unfold reshape_2. apply Forall_fmap, Forall_forall. by intros v _. Qed.

(** X10: the tensors handed to the model have the shape [create_model]
    declares ([input_shape=(lahead, 1)]): every train and test sample has
    [lahead] time steps of one feature each, and every target row has one
    value. *)
Theorem pipeline_tensor_shapes `{RandomState rng}
    (seed input_len tsteps lahead batch_size : Z) (ratio : Q) (s0 : rng) :
  0 ≤ input_len → 1 ≤ tsteps → 1 ≤ lahead → batch_size ≠ 0 →
  ∃ x_train y_train x_test y_test,
    pipeline seed input_len tsteps lahead batch_size ratio s0
      = Some ((x_train, y_train), (x_test, y_test))
    ∧ Forall (λ sample : list (list cell),
                length sample = Z.to_nat lahead
                ∧ Forall (λ step, length step = 1%nat) sample) x_train
    ∧ Forall (λ sample : list (list cell),
                length sample = Z.to_nat lahead
                ∧ Forall (λ step, length step = 1%nat) sample) x_test
    ∧ Forall (λ r : list cell, length r = 1%nat) y_train
    ∧ Forall (λ r : list cell, length r = 1%nat) y_test.
Proof.
  intros Hn Hts Hla Hb. unfold pipeline.
  destruct (prepare_lengths input_len tsteps lahead (np_random_seed seed) Hn Hts)
    as (x & y & Hprep & Hx & Hy).
  rewrite Hprep. simpl.
  rewrite (split_data_Some input_len batch_size x y ratio _ Hb
             (split_index_Some input_len batch_size ratio Hb)).
  assert (Hrows : Forall (λ r, length r = Z.to_nat lahead) x).
  { apply Forall_lookup. intros j row Hrow.
    assert (Hj : (j < Z.to_nat input_len)%nat).
    { apply lookup_lt_Some in Hrow. lia. }
    rewrite (prepared_row input_len tsteps lahead (np_random_seed seed) x y j
               Hn Hts Hla Hprep Hj) in Hrow.
    injection Hrow as <-. apply length_window_at. }
  eexists _, _, _, _. split; [reflexivity|].
  split_and!.
  - by apply reshape_3_shape, Forall_py_slice_to.
  - by apply reshape_3_shape, Forall_tail_truncate, Forall_py_slice_from.
  - apply reshape_2_shape.
  - apply reshape_2_shape.
Qed.

Lemma pipeline_tensor_shapes_witness :
  ∃ x_train y_train x_test y_test,
    pipeline 1986 5 2 3 2 default_ratio 0
      = Some ((x_train, y_train), (x_test, y_test))
    ∧ Forall (λ sample : list (list cell),
                length sample = Z.to_nat 3
                ∧ Forall (λ step, length step = 1%nat) sample) x_train
    ∧ Forall (λ sample : list (list cell),
                length sample = Z.to_nat 3
                ∧ Forall (λ step, length step = 1%nat) sample) x_test
    ∧ Forall (λ r : list cell, length r = 1%nat) y_train
    ∧ Forall (λ r : list cell, length r = 1%nat) y_test.
Proof.
  apply (pipeline_tensor_shapes (rng := Z) 1986 5 2 3 2 default_ratio 0); lia.
Defined.

(** ** The axis limits *)

Lemma foldl_max_spec (a : Q) (l : list Q) :
  foldl (λ m v, if Qlt_le_dec m v then v else m) a l ∈ a :: l
  ∧ ∀ v, v ∈ a :: l →
      (v <= foldl (λ m v, if Qlt_le_dec m v then v else m) a l)%Q.
Proof.
  revert a. induction l as [|b l IH]; intros a; simpl.
  - split; [by left|]. intros v Hv. apply list_elem_of_singleton in Hv as ->.
    apply Qle_refl.
  - destruct (IH (if Qlt_le_dec a b then b else a)) as [Hin Hmax].
    assert (Hab : (a <= (if Qlt_le_dec a b then b else a)
                   ∧ b <= (if Qlt_le_dec a b then b else a))%Q).
    { destruct (Qlt_le_dec a b) as [Hlt|Hle].
      - split; [by apply Qlt_le_weak|apply Qle_refl].
      - split; [apply Qle_refl|done]. }
    split.
    + apply elem_of_cons in Hin as [Heq|Hin].
      * rewrite Heq. destruct (Qlt_le_dec a b); [right; left|left].
      * by do 2 right.
    + intros v Hv. apply elem_of_cons in Hv as [->|Hv].
      { eapply Qle_trans; [apply Hab|]. apply Hmax. by left. }
      apply elem_of_cons in Hv as [->|Hv].
      { eapply Qle_trans; [apply Hab|]. apply Hmax. by left. }
      apply Hmax. by right.
Qed.

Lemma py_max_spec (l : list Q) (m : Q) :
  py_max l = Some m → m ∈ l ∧ ∀ v, v ∈ l → (v <= m)%Q.
Proof.
  destruct l as [|a l]; [done|]. intros Hm. injection Hm as <-.
  apply foldl_max_spec.
Qed.

Lemma py_max_None (l : list Q) : py_max l = None ↔ l = [].
Proof. by destruct l. Qed.

(** X11: the y-limits exist as soon as one value is plotted; they are
    symmetric, every value of the three series lies within them, and the
    upper limit is 1.1 times the largest magnitude plotted. *)
Theorem y_limits_enclose (y_test predicted_stateful predicted_stateless : list Q) :
  y_test ++ predicted_stateful ++ predicted_stateless ≠ [] →
  ∃ min_y max_y,
    y_limits y_test predicted_stateful predicted_stateless = Some (min_y, max_y)
    ∧ (min_y == - max_y)%Q
    ∧ (∃ v, v ∈ y_test ++ predicted_stateful ++ predicted_stateless
            ∧ (∀ w, w ∈ y_test ++ predicted_stateful ++ predicted_stateless →
                 (Qabs w <= Qabs v)%Q)
            ∧ (max_y == Qabs v * (11 # 10))%Q)
    ∧ ∀ v, v ∈ y_test ++ predicted_stateful ++ predicted_stateless →
        (min_y <= v ∧ v <= max_y)%Q.
Proof.
  intros Hne. unfold y_limits.
  destruct (py_max (Qabs <$> y_test ++ predicted_stateful ++ predicted_stateless))
    as [m|] eqn:Hm.
  2:{ apply py_max_None, fmap_nil_inv in Hm. done. }
  destruct (py_max_spec _ _ Hm) as [Hin Hmax].
  apply list_elem_of_fmap in Hin as (v0 & -> & Hv0).
  assert (Hall : ∀ w, w ∈ y_test ++ predicted_stateful ++ predicted_stateless →
                   (Qabs w <= Qabs v0)%Q).
  { intros w Hw. apply Hmax, list_elem_of_fmap. by exists w. }
  simpl. eexists _, _. split; [reflexivity|].
  split; [ring|].
  split; [by exists v0|].
  intros v Hv. pose proof (Hall v Hv) as Habs.
  pose proof (Qabs_nonneg v) as Hnn.
  apply Qabs_Qle_condition in Habs as Hv'.
  destruct (proj1 (Qabs_Qle_condition v (Qabs v)) (Qle_refl _)) as [Hl Hu].
  split; lra.
Qed.

Lemma y_limits_enclose_witness :
  ∃ min_y max_y,
    y_limits [1 # 2; - (3 # 4)]%Q [1 # 3; 1 # 5]%Q [- (1 # 2); 2 # 3]%Q
      = Some (min_y, max_y)
    ∧ (min_y == - max_y)%Q
    ∧ (∃ v, v ∈ [1 # 2; - (3 # 4)]%Q ++ [1 # 3; 1 # 5]%Q ++ [- (1 # 2); 2 # 3]%Q
            ∧ (∀ w, w ∈ [1 # 2; - (3 # 4)]%Q ++ [1 # 3; 1 # 5]%Q
                          ++ [- (1 # 2); 2 # 3]%Q →
                 (Qabs w <= Qabs v)%Q)
            ∧ (max_y == Qabs v * (11 # 10))%Q)
    ∧ ∀ v, v ∈ [1 # 2; - (3 # 4)]%Q ++ [1 # 3; 1 # 5]%Q ++ [- (1 # 2); 2 # 3]%Q →
        (min_y <= v ∧ v <= max_y)%Q.
Proof.
  apply (y_limits_enclose [1 # 2; - (3 # 4)]%Q [1 # 3; 1 # 5]%Q
           [- (1 # 2); 2 # 3]%Q).
  discriminate.
Defined.

(** X12: computing the y-limits raises exactly when nothing is plotted: an
    empty test set makes [max] fail on an empty sequence. *)
Theorem y_limits_fail_iff_empty
    (y_test predicted_stateful predicted_stateless : list Q) :
  y_limits y_test predicted_stateful predicted_stateless = None
  ↔ y_test = [] ∧ predicted_stateful = [] ∧ predicted_stateless = [].
Proof.
  unfold y_limits. split.
  - intros Hnone.
    destruct (py_max (Qabs <$> y_test ++ predicted_stateful ++ predicted_stateless))
      as [m|] eqn:Hm; [done|].
    apply py_max_None, fmap_nil_inv in Hm.
    apply app_eq_nil in Hm as [-> Hm]. by apply app_eq_nil in Hm as [-> ->].
  - by intros (-> & -> & ->).
Qed.

Lemma np_sub_same_length (a b : list Q) :
  length a = length b → np_sub a b = Some (zip_with Qminus a b).
Proof. intros Hlen. unfold np_sub. by rewrite decide_True. Qed.

(** X13: the series plotted as the error of [y_test] is [y_test - y_test]:
    it has one entry per test sample and every entry is zero, whatever the
    model predicted. *)
Theorem y_test_err_is_zero (y_test predicted_stateful predicted_stateless : list Q) :
  length predicted_stateful = length y_test →
  length predicted_stateless = length y_test →
  ∃ y_test_err predicted_stateful_err predicted_stateless_err,
    error_series y_test predicted_stateful predicted_stateless
      = Some (y_test_err, predicted_stateful_err, predicted_stateless_err)
    ∧ length y_test_err = length y_test
    ∧ Forall (λ e, (e == 0)%Q) y_test_err.
Proof.
  intros H1 H2. unfold error_series.
  rewrite !np_sub_same_length by done. simpl.
  eexists _, _, _. split; [reflexivity|].
  split; [rewrite length_zip_with; lia|].
  apply Forall_lookup. intros i e He.
  rewrite lookup_zip_with in He.
  destruct (y_test !! i) as [v|]; simplify_eq/=. ring.
Qed.

Lemma y_test_err_is_zero_witness :
  ∃ y_test_err predicted_stateful_err predicted_stateless_err,
    error_series [1 # 2; - (3 # 4)]%Q [1 # 3; 1 # 5]%Q [- (1 # 2); 2 # 3]%Q
      = Some (y_test_err, predicted_stateful_err, predicted_stateless_err)
    ∧ length y_test_err = length [1 # 2; - (3 # 4)]%Q
    ∧ Forall (λ e, (e == 0)%Q) y_test_err.
Proof.
  apply (y_test_err_is_zero [1 # 2; - (3 # 4)]%Q [1 # 3; 1 # 5]%Q
           [- (1 # 2); 2 # 3]%Q); reflexivity.
Defined.

(** X14: with one prediction per test sample (and at least one sample) the
    error limits exist; the upper one is not negative, the lower one is
    five times as far from zero, and every prediction error of either model
    lies between them. *)
Theorem err_limits_enclose
    (y_test predicted_stateful predicted_stateless : list Q) :
  y_test ≠ [] →
  length predicted_stateful = length y_test →
  length predicted_stateless = length y_test →
  ∃ min_err max_err,
    err_limits y_test predicted_stateful predicted_stateless
      = Some (min_err, max_err)
    ∧ (0 <= max_err)%Q
    ∧ (min_err == -5 * max_err)%Q
    ∧ ∀ i y p q,
        y_test !! i = Some y →
        predicted_stateful !! i = Some p →
        predicted_stateless !! i = Some q →
        (min_err <= y - p ∧ y - p <= max_err
         ∧ min_err <= y - q ∧ y - q <= max_err)%Q.
Proof.
  intros Hne H1 H2. unfold err_limits, error_series.
  rewrite !np_sub_same_length by done. simpl.
  set (errs := zip_with Qminus y_test y_test
               ++ zip_with Qminus y_test predicted_stateful
               ++ zip_with Qminus y_test predicted_stateless).
  destruct (py_max (Qabs <$> errs)) as [m|] eqn:Hm.
  2:{ apply py_max_None, fmap_nil_inv in Hm. unfold errs in Hm.
      apply app_eq_nil in Hm as [Hm _].
      destruct y_test; [done|discriminate]. }
  destruct (py_max_spec _ _ Hm) as [Hin Hmax].
  apply list_elem_of_fmap in Hin as (v0 & -> & Hv0).
  simpl. eexists _, _. split; [reflexivity|].
  pose proof (Qabs_nonneg v0) as Hnn.
  split; [lra|]. split; [ring|].
  intros i y p q Hy Hp Hq.
  assert (Hp' : (Qabs (y - p) <= Qabs v0)%Q).
  { apply Hmax, list_elem_of_fmap. exists (y - p)%Q. split; [done|].
    unfold errs. apply elem_of_app; right. apply elem_of_app; left.
    apply list_elem_of_lookup. exists i.
    by rewrite lookup_zip_with, Hy, Hp. }
  assert (Hq' : (Qabs (y - q) <= Qabs v0)%Q).
  { apply Hmax, list_elem_of_fmap. exists (y - q)%Q. split; [done|].
    unfold errs. apply elem_of_app; right. apply elem_of_app; right.
    apply list_elem_of_lookup. exists i.
    by rewrite lookup_zip_with, Hy, Hq. }
  apply Qabs_Qle_condition in Hp' as [Hp1 Hp2].
  apply Qabs_Qle_condition in Hq' as [Hq1 Hq2].
  split_and!; lra.
Qed.

Lemma err_limits_enclose_witness :
  ∃ min_err max_err,
    err_limits [1 # 2; - (3 # 4)]%Q [1 # 3; 1 # 5]%Q [- (1 # 2); 2 # 3]%Q
      = Some (min_err, max_err)
    ∧ (0 <= max_err)%Q
    ∧ (min_err == -5 * max_err)%Q
    ∧ ∀ i y p q,
        [1 # 2; - (3 # 4)]%Q !! i = Some y →
        [1 # 3; 1 # 5]%Q !! i = Some p →
        [- (1 # 2); 2 # 3]%Q !! i = Some q →
        (min_err <= y - p ∧ y - p <= max_err
         ∧ min_err <= y - q ∧ y - q <= max_err)%Q.
Proof.
  apply (err_limits_enclose [1 # 2; - (3 # 4)]%Q [1 # 3; 1 # 5]%Q
           [- (1 # 2); 2 # 3]%Q).
  - discriminate.
  - reflexivity.
  - reflexivity.
Defined.

(** ** Edge cases *)

(** X15: with [tsteps = 1] the moving average is the sequence itself: every
    target equals the first entry of its input row. *)
Theorem unit_window_target_is_input `{RandomState rng} (input_len lahead : Z)
    (s : rng) :
  0 ≤ input_len → 1 ≤ lahead →
  ∃ x y,
    prepare input_len 1 lahead s = Some (x, y)
    ∧ ∀ j, (j < Z.to_nat input_len)%nat →
        ∃ row cur t,
          x !! j = Some row
          ∧ row !! 0%nat = Some (Some cur)
          ∧ y !! j = Some (Some t)
          ∧ (t == cur)%Q.
Proof.
  intros Hn Hla.
  destruct (prepare_lengths input_len 1 lahead s Hn ltac:(lia))
    as (x & y & Hprep & _ & _).
  exists x, y. split; [done|]. intros j Hj.
  destruct (prepared_target input_len 1 lahead s x y j Hn ltac:(lia) Hprep Hj)
    as (t & Ht & Hmean).
  pose proof (length_raw_sequence input_len 1 lahead s) as Hlen.
  pose proof (to_drop_nonneg 1 lahead ltac:(lia)) as Hd.
  destruct (lookup_lt_is_Some_2 (raw_sequence input_len 1 lahead s)
              (Z.to_nat (to_drop 1 lahead) + j)) as [cur Hcur]; [lia|].
  eexists _, cur, t. split.
  { by apply (prepared_row input_len 1 lahead s x y j); try lia. }
  split; [rewrite window_at_lookup by lia; by rewrite Nat.sub_0_r, Hcur|].
  split; [done|].
  rewrite Hmean. unfold trailing_mean. change (Z.to_nat 1) with 1%nat.
  replace (S (Z.to_nat (to_drop 1 lahead) + j) - 1)%nat
    with (Z.to_nat (to_drop 1 lahead) + j)%nat by lia.
  rewrite (drop_S _ _ _ Hcur). cbn [take]. rewrite take_0.
  change (Qsum [cur]) with (cur + 0)%Q.
  change (inject_Z (Z.of_nat 1)) with 1%Q. field.
Qed.

Lemma unit_window_target_is_input_witness :
  ∃ x y,
    prepare 3 1 2 (np_random_seed 1986) = Some (x, y)
    ∧ ∀ j, (j < Z.to_nat 3)%nat →
        ∃ row cur t,
          x !! j = Some row
          ∧ row !! 0%nat = Some (Some cur)
          ∧ y !! j = Some (Some t)
          ∧ (t == cur)%Q.
Proof.
  apply (unit_window_target_is_input (rng := Z) 3 2 (np_random_seed 1986)); lia.
Defined.

Lemma np_random_uniform_app `{RandomState rng} (low high : Q) (n m : nat)
    (s : rng) :
  np_random_uniform low high (n + m) s =
    ((np_random_uniform low high n s).1
       ++ (np_random_uniform low high m (np_random_uniform low high n s).2).1,
     (np_random_uniform low high m (np_random_uniform low high n s).2).2).
Proof.
  revert s. induction n as [|n IH]; intros s; simpl.
  - by destruct (np_random_uniform low high m s).
  - destruct (random_double s) as [u s1]. rewrite IH.
    destruct (np_random_uniform low high n s1) as [vs s2]. simpl.
    by destruct (np_random_uniform low high m s2).
Qed.

(** X16: the generator continues its stream: drawing [n + m] samples in one
    call gives the [n] samples of a first call followed by the [m] samples
    of a second call made in the state the first one left. *)
Theorem gen_uniform_amp_continues `{RandomState rng} (amp : Q) (n m : Z) (s : rng) :
  0 ≤ n → 0 ≤ m →
  ∃ a s1 b s2,
    gen_uniform_amp amp n s = Some (a, s1)
    ∧ gen_uniform_amp amp m s1 = Some (b, s2)
    ∧ gen_uniform_amp amp (n + m) s = Some (a ++ b, s2).
Proof.
  intros Hn Hm. eexists _, _, _, _.
  split; [by apply gen_uniform_amp_Some|].
  split; [by apply gen_uniform_amp_Some|].
  rewrite gen_uniform_amp_Some by lia.
  rewrite Z2Nat.inj_add, np_random_uniform_app by done.
  cbn [fst snd]. unfold pd_DataFrame. by rewrite fmap_app.
Qed.

Lemma gen_uniform_amp_continues_witness :
  ∃ a s1 b s2,
    gen_uniform_amp (1 # 10) 2 (np_random_seed 1986) = Some (a, s1)
    ∧ gen_uniform_amp (1 # 10) 3 s1 = Some (b, s2)
    ∧ gen_uniform_amp (1 # 10) (2 + 3) (np_random_seed 1986) = Some (a ++ b, s2).
Proof.
  apply (gen_uniform_amp_continues (rng := Z) (1 # 10) 2 3 (np_random_seed 1986));
    lia.
Defined.







(** * Windowing order, totality of the split, reproducibility *)

(** ** Order of the windowing and the drop *)

(** Row [j] of the prepared input for any [lahead]: without windowing a row
    is a window of one sample. *)
Lemma prepared_row_any `{RandomState rng} (input_len tsteps lahead : Z) (s : rng)
    (x : frame) (y : list cell) (j : nat) :
  0 ≤ input_len → 1 ≤ tsteps →
  prepare input_len tsteps lahead s = Some (x, y) →
  (j < Z.to_nat input_len)%nat →
  x !! j = Some (window_at (Z.to_nat (lahead `max` 1))
                   (raw_sequence input_len tsteps lahead s)
                   (Z.to_nat (to_drop tsteps lahead) + j)).
Proof.
  intros Hn Hts Hprep Hj.
  destruct (decide (1 < lahead)) as [Hl|Hl].
  - replace (lahead `max` 1) with lahead by lia.
    by apply (prepared_window_row input_len tsteps lahead s x y j).
  - replace (lahead `max` 1) with 1 by lia.
    pose proof (to_drop_nonneg tsteps lahead Hts) as Hd.
    destruct (prepare_Some input_len tsteps lahead s Hn Hts) as (ma & _ & Heq).
    rewrite Hprep, decide_False in Heq by done. simplify_eq.
    rewrite lookup_drop. apply pd_DataFrame_row.
    rewrite length_raw_sequence. lia.
Qed.

(** What the preparation would return with the drop placed first. *)
Lemma prepare_drop_first_Some `{RandomState rng} (input_len tsteps lahead : Z)
    (s : rng) :
  0 ≤ input_len → 1 ≤ tsteps → 1 < lahead →
  ∃ ma,
    prepare_drop_first input_len tsteps lahead s =
      Some (window_at (Z.to_nat lahead)
              (drop (Z.to_nat (to_drop tsteps lahead))
                 (raw_sequence input_len tsteps lahead s))
            <$> seq 0 (Z.to_nat input_len),
            drop (Z.to_nat (to_drop tsteps lahead)) ma).
Proof.
  intros Hn Hts Hla. pose proof (to_drop_nonneg tsteps lahead Hts) as Hd.
  destruct (rolling_mean_spec (raw_sequence input_len tsteps lahead s) tsteps Hts)
    as (ma & Hma & _).
  exists ma. unfold prepare_drop_first.
  destruct (generated_Some input_len tsteps lahead s ltac:(lia)) as [s' ->].
  simpl. rewrite get_col_pd_DataFrame, Hma. simpl.
  rewrite !py_slice_from_nonneg, decide_True by done.
  unfold pd_DataFrame at 1. rewrite <- fmap_drop.
  fold (pd_DataFrame (drop (Z.to_nat (to_drop tsteps lahead))
                        (raw_sequence input_len tsteps lahead s))).
  rewrite rolling_window_view_spec, length_drop, length_raw_sequence.
  by replace (Z.to_nat (input_len + to_drop tsteps lahead)
              - Z.to_nat (to_drop tsteps lahead))%nat
    with (Z.to_nat input_len) by lia.
Qed.

(** C3 (as amended): the rolling window view is built over the whole
    generated sequence first; then exactly the first
    [max(tsteps-1, lahead-1)] rows are dropped from the windowed input and
    from the moving average.  No entry of what is kept, nor of the four
    arrays [split_data] returns, is NaN.  Entry [c] of kept row [j] is the
    sample at raw index [to_drop + j - c], so for [lahead > 1] the kept
    windows reach back into the dropped raw positions; with the drop placed
    before the windowing the first window would hold a NaN instead. *)
Theorem undefined_rows_dropped `{RandomState rng} (input_len tsteps lahead : Z)
    (s : rng) :
  0 ≤ input_len → 1 ≤ tsteps →
  ∃ data s' ma x y,
    generated input_len tsteps lahead s = Some (data, s')
    ∧ rolling_mean tsteps (get_col 0 data) = Some ma
    ∧ prepare input_len tsteps lahead s = Some (x, y)
    ∧ to_drop tsteps lahead = (tsteps - 1) `max` (lahead - 1)
    ∧ x = drop (Z.to_nat (to_drop tsteps lahead))
            (if decide (1 < lahead)
             then rolling_window_view (Z.to_nat lahead) data
             else data)
    ∧ y = drop (Z.to_nat (to_drop tsteps lahead)) ma
    ∧ Z.of_nat (length x) = Z.of_nat (length data) - to_drop tsteps lahead
    ∧ Z.of_nat (length y) = Z.of_nat (length ma) - to_drop tsteps lahead
    ∧ Forall (Forall is_Some) x
    ∧ Forall is_Some y
    ∧ (∀ batch_size ratio x_train y_train x_test y_test,
         split_data input_len batch_size x y ratio
           = Some ((x_train, y_train), (x_test, y_test)) →
         Forall (Forall (Forall is_Some)) x_train
         ∧ Forall (Forall is_Some) y_train
         ∧ Forall (Forall (Forall is_Some)) x_test
         ∧ Forall (Forall is_Some) y_test)
    ∧ data = pd_DataFrame (raw_sequence input_len tsteps lahead s)
    ∧ (∀ j, (j < Z.to_nat input_len)%nat →
         ∃ row,
           x !! j = Some row
           ∧ length row = Z.to_nat (lahead `max` 1)
           ∧ ∀ c, (c < Z.to_nat (lahead `max` 1))%nat →
               ∃ v, raw_sequence input_len tsteps lahead s
                      !! (Z.to_nat (to_drop tsteps lahead) + j - c)%nat = Some v
                    ∧ row !! c = Some (Some v))
    ∧ (1 < lahead → 1 ≤ input_len →
       (∃ row v,
          x !! 0%nat = Some row
          ∧ row !! 1%nat = Some (Some v)
          ∧ raw_sequence input_len tsteps lahead s
              !! (Z.to_nat (to_drop tsteps lahead) - 1)%nat = Some v)
       ∧ ∃ x' y',
           prepare_drop_first input_len tsteps lahead s = Some (x', y')
           ∧ (∃ row, x' !! 0%nat = Some row ∧ None ∈ row)
           ∧ x' ≠ x).
Proof.
  intros Hn Hts. pose proof (to_drop_nonneg tsteps lahead Hts) as Hd.
  destruct (generated_Some input_len tsteps lahead s ltac:(lia)) as [s' Hgen].
  destruct (prepare_Some input_len tsteps lahead s Hn Hts) as (ma & Hma & Hprep).
  destruct (rolling_mean_spec (raw_sequence input_len tsteps lahead s) tsteps Hts)
    as (ma' & Hma' & Hmalen & _).
  rewrite Hma in Hma'. injection Hma' as <-.
  pose proof (length_raw_sequence input_len tsteps lahead s) as Hlen.
  assert (Hx : Forall (Forall is_Some)
                 (drop (Z.to_nat (to_drop tsteps lahead))
                    (if decide (1 < lahead)
                     then window_at (Z.to_nat lahead)
                            (raw_sequence input_len tsteps lahead s)
                          <$> seq 0 (length (raw_sequence input_len tsteps lahead s))
                     else pd_DataFrame (raw_sequence input_len tsteps lahead s)))).
  { destruct (decide (1 < lahead)).
    - apply windows_defined_after. unfold to_drop. lia.
    - apply Forall_drop, pd_DataFrame_defined. }
  assert (Hy : Forall is_Some (drop (Z.to_nat (to_drop tsteps lahead)) ma)).
  { apply (moving_average_defined_after
             (raw_sequence input_len tsteps lahead s) tsteps); [done| |done].
    unfold to_drop. lia. }
  assert (Hrow : ∀ j, (j < Z.to_nat input_len)%nat →
            drop (Z.to_nat (to_drop tsteps lahead))
              (if decide (1 < lahead)
               then window_at (Z.to_nat lahead)
                      (raw_sequence input_len tsteps lahead s)
                    <$> seq 0 (length (raw_sequence input_len tsteps lahead s))
               else pd_DataFrame (raw_sequence input_len tsteps lahead s)) !! j
            = Some (window_at (Z.to_nat (lahead `max` 1))
                      (raw_sequence input_len tsteps lahead s)
                      (Z.to_nat (to_drop tsteps lahead) + j))).
  { intros j Hj.
    by apply (prepared_row_any input_len tsteps lahead s _ _ j Hn Hts Hprep). }
  assert (Hentry : ∀ j c, (j < Z.to_nat input_len)%nat →
            (c < Z.to_nat (lahead `max` 1))%nat →
            ∃ v, raw_sequence input_len tsteps lahead s
                   !! (Z.to_nat (to_drop tsteps lahead) + j - c)%nat = Some v
                 ∧ window_at (Z.to_nat (lahead `max` 1))
                     (raw_sequence input_len tsteps lahead s)
                     (Z.to_nat (to_drop tsteps lahead) + j) !! c
                   = Some (Some v)).
  { intros j c Hj Hc.
    rewrite window_at_lookup by (unfold to_drop in *; lia).
    destruct (lookup_lt_is_Some_2 (raw_sequence input_len tsteps lahead s)
                (Z.to_nat (to_drop tsteps lahead) + j - c)) as [v Hv]; [lia|].
    exists v. by rewrite Hv. }
  eexists _, s', ma, _, _.
  split; [exact Hgen|].
  split; [by rewrite get_col_pd_DataFrame|].
  split; [exact Hprep|].
  split; [done|].
  split; [by destruct (decide (1 < lahead)); rewrite ?rolling_window_view_spec|].
  split; [done|].
  split.
  { rewrite length_drop.
    destruct (decide (1 < lahead)); unfold pd_DataFrame;
      rewrite !length_fmap, ?length_seq, Hlen; lia. }
  split; [rewrite length_drop, Hmalen, Hlen; lia|].
  split; [exact Hx|]. split; [exact Hy|].
  split.
  { intros batch_size ratio x_train y_train x_test y_test Hsplit.
    by apply (split_data_defined input_len batch_size _ _ ratio _ _ _ _ Hx Hy). }
  split; [done|].
  split.
  { intros j Hj. eexists. split; [by apply Hrow|].
    split; [apply length_window_at|]. intros c Hc. by apply Hentry. }
  intros Hla Hpos. split.
  - destruct (Hentry 0%nat 1%nat ltac:(lia) ltac:(lia)) as (v & Hv & Hcell).
    eexists _, v. split; [apply Hrow; lia|]. split; [exact Hcell|].
    by replace (Z.to_nat (to_drop tsteps lahead) - 1)%nat
      with (Z.to_nat (to_drop tsteps lahead) + 0 - 1)%nat by lia.
  - destruct (prepare_drop_first_Some input_len tsteps lahead s Hn Hts Hla)
      as (ma' & Hfirst).
    assert (Hrow0 :
      (window_at (Z.to_nat lahead)
         (drop (Z.to_nat (to_drop tsteps lahead))
            (raw_sequence input_len tsteps lahead s))
       <$> seq 0 (Z.to_nat input_len)) !! 0%nat
      = Some (window_at (Z.to_nat lahead)
                (drop (Z.to_nat (to_drop tsteps lahead))
                   (raw_sequence input_len tsteps lahead s)) 0)).
    { by rewrite list_lookup_fmap, lookup_seq_lt by lia. }
    assert (Hnan :
      None ∈ window_at (Z.to_nat lahead)
               (drop (Z.to_nat (to_drop tsteps lahead))
                  (raw_sequence input_len tsteps lahead s)) 0).
    { apply list_elem_of_lookup. exists 1%nat. unfold window_at.
      rewrite list_lookup_fmap, lookup_seq_lt by lia.
      reflexivity. }
    eexists _, _. split; [exact Hfirst|]. split; [by eexists|].
    intros Heq. rewrite Heq in Hrow0.
    rewrite Forall_lookup in Hx. specialize (Hx _ _ Hrow0).
    rewrite Forall_forall in Hx. specialize (Hx _ Hnan).
    by destruct Hx.
Qed.

Lemma undefined_rows_dropped_witness :
  ∃ data s' ma x y,
    generated 2 2 3 (np_random_seed 1986) = Some (data, s')
    ∧ rolling_mean 2 (get_col 0 data) = Some ma
    ∧ prepare 2 2 3 (np_random_seed 1986) = Some (x, y)
    ∧ to_drop 2 3 = (2 - 1) `max` (3 - 1)
    ∧ x = drop (Z.to_nat (to_drop 2 3))
            (if decide (1 < 3)
             then rolling_window_view (Z.to_nat 3) data
             else data)
    ∧ y = drop (Z.to_nat (to_drop 2 3)) ma
    ∧ Z.of_nat (length x) = Z.of_nat (length data) - to_drop 2 3
    ∧ Z.of_nat (length y) = Z.of_nat (length ma) - to_drop 2 3
    ∧ Forall (Forall is_Some) x
    ∧ Forall is_Some y
    ∧ (∀ batch_size ratio x_train y_train x_test y_test,
         split_data 2 batch_size x y ratio
           = Some ((x_train, y_train), (x_test, y_test)) →
         Forall (Forall (Forall is_Some)) x_train
         ∧ Forall (Forall is_Some) y_train
         ∧ Forall (Forall (Forall is_Some)) x_test
         ∧ Forall (Forall is_Some) y_test)
    ∧ data = pd_DataFrame (raw_sequence 2 2 3 (np_random_seed 1986))
    ∧ (∀ j, (j < Z.to_nat 2)%nat →
         ∃ row,
           x !! j = Some row
           ∧ length row = Z.to_nat (3 `max` 1)
           ∧ ∀ c, (c < Z.to_nat (3 `max` 1))%nat →
               ∃ v, raw_sequence 2 2 3 (np_random_seed 1986)
                      !! (Z.to_nat (to_drop 2 3) + j - c)%nat = Some v
                    ∧ row !! c = Some (Some v))
    ∧ (1 < 3 → 1 ≤ 2 →
       (∃ row v,
          x !! 0%nat = Some row
          ∧ row !! 1%nat = Some (Some v)
          ∧ raw_sequence 2 2 3 (np_random_seed 1986)
              !! (Z.to_nat (to_drop 2 3) - 1)%nat = Some v)
       ∧ ∃ x' y',
           prepare_drop_first 2 2 3 (np_random_seed 1986) = Some (x', y')
           ∧ (∃ row, x' !! 0%nat = Some row ∧ None ∈ row)
           ∧ x' ≠ x).
Proof.
  apply (undefined_rows_dropped (rng := Z) 2 2 3 (np_random_seed 1986)); lia.
Defined.

(** C3 as stated fails on the order of the steps: dropping before the
    windowing would leave a NaN in the first window, which the script's
    output does not have; and the first window the script keeps reaches
    back to the sample at raw position 0, inside the dropped region. *)
Lemma drop_does_not_precede_windowing :
  ∃ x y x' y' x0 x1 x2,
    raw_sequence 2 2 2 (np_random_seed 1986) = [x0; x1; x2]
    ∧ to_drop 2 2 = 1
    ∧ prepare 2 2 2 (np_random_seed 1986) = Some (x, y)
    ∧ prepare_drop_first 2 2 2 (np_random_seed 1986) = Some (x', y')
    ∧ x !! 0%nat = Some [Some x1; Some x0]
    ∧ x' !! 0%nat = Some [Some x1; None]
    ∧ x ≠ x'.
Proof.
  eexists _, _, _, _, _, _, _.
  split; [vm_compute; reflexivity|].
  split; [reflexivity|].
  split; [vm_compute; reflexivity|].
  split; [vm_compute; reflexivity|].
  split; [reflexivity|].
  split; [reflexivity|].
  discriminate.
Qed.

(** ** Totality of the split *)




(** Five rows in batches of three at the default ratio: three train rows,
    and both remaining rows are removed from the test part. *)
Example split_data_total_sample :
  split_data_binary64 5 3 (pd_DataFrame [1; 2; 3; 4; 5]%Q)
    (Some <$> [1; 2; 3; 4; 5]%Q) default_ratio_binary64
  = inr ((reshape_3 (pd_DataFrame [1; 2; 3]%Q), reshape_2 (Some <$> [1; 2; 3]%Q)),
         ([], [])).
Proof. vm_compute. reflexivity. Qed.


(** ** Reproducibility of the generator *)





(** The seeding is what makes the run reproducible: with the linear
    congruential generator, the same draws without it differ from one state
    to another, a second unseeded run differs from the first, and two seeds
    give two sequences. *)
Example unseeded_generator_depends_on_state :
  (sequence_generator_unseeded (1 # 10) 4 2 (7 : Z)).1
  ≠ (sequence_generator_unseeded (1 # 10) 4 2 (8 : Z)).1
  ∧ (sequence_generator_unseeded (1 # 10) 4 2
       (sequence_generator_unseeded (1 # 10) 4 2 (7 : Z)).2).1
    ≠ (sequence_generator_unseeded (1 # 10) 4 2 (7 : Z)).1
  ∧ (sequence_generator 1986 (1 # 10) 4 2 (7 : Z)).1
    ≠ (sequence_generator 1987 (1 # 10) 4 2 (7 : Z)).1.
Proof. vm_compute. split_and!; discriminate. Qed.
